(** * Currency conversion rates: a shallow embedding of [ccr_test.py] and
    [new_ccr.py], and the properties of the rate resolution and
    reconciliation engine checked against it.

    Layout: the Python runtime the scripts rely on ([Py]), the static
    tables ([Config]), the data frames they build ([Frame]), the outside
    world they talk to ([Net], [Scrape]), the daily collector [ccr_test],
    the month-block refresher [new_ccr], reference inputs ([Scenario]) and
    the wording of the gap-filling rule ([FillSpec]); the lemmas and the
    theorems follow the definitions.

    Python [float] is IEEE binary64 and is embedded as Rocq's primitive
    [float]; [None] is [None] of an [option]; a [dict] keyed by currency
    code is a [gmap string _]; a raised exception is the [Raise] branch of
    [result]. *)

From Stdlib Require Import ZArith String Ascii List Bool Lia.
From Stdlib Require Import PrimFloat SpecFloat FloatOps.
From stdpp Require Import gmap strings list sorting.

#[local] Set Warnings "-inexact-float".
#[local] Open Scope string_scope.
#[local] Open Scope list_scope.
#[local] Open Scope nat_scope.

(* ================================================================== *)
(** ** The Python runtime *)
(* ================================================================== *)

Module Py.

(** The exception classes that reach the modelled code. [OtherError] stands
    for whatever a collaborator (HTTP transport, table extraction) raises. *)
Inductive exn : Type :=
| RuntimeError
| ValueError
| KeyError
| ZeroDivisionError
| AttributeError
| HTTPError
| OtherError.

Inductive result (A : Type) : Type :=
| Ok (a : A)
| Raise (e : exn).
Arguments Ok {A} a.
Arguments Raise {A} e.

Definition rbind {A B} (r : result A) (k : A → result B) : result B :=
  match r with
  | Ok a => k a
  | Raise e => Raise e
  end.

Definition is_ok {A} (r : result A) : bool :=
  match r with Ok _ => true | Raise _ => false end.

(** *** Floats *)

(** [x == 0.0]: true of both zeros, false of a NaN. *)
Definition is_zero (x : float) : bool := PrimFloat.eqb x 0%float.

(** Truth value of a float: [bool(x)]. *)
Definition truthy (x : float) : bool := negb (is_zero x).

(** [a / b] on floats: Python raises on a zero divisor, and otherwise
    divides as IEEE does (an overflow gives an infinity). *)
Definition truediv (a b : float) : result float :=
  if is_zero b then Raise ZeroDivisionError else Ok (a / b)%float.

(** [num / den] rounded to the nearest integer, ties to even. *)
Definition round_half_even (num den : Z) : Z :=
  let q := (num / den)%Z in
  let r := (num mod den)%Z in
  match (2 * r ?= den)%Z with
  | Lt => q
  | Gt => (q + 1)%Z
  | Eq => if Z.even q then q else (q + 1)%Z
  end.

(** [round(x, 6)]: CPython rounds the exact binary value of [x] to six
    decimals, ties to even, and reads the decimal back as the nearest
    double; a NaN or an infinity rounds to itself. The nearest double of
    [n / 10^6] is the correctly rounded quotient of the two integers. *)
Definition round6 (x : float) : float :=
  match Prim2SF x with
  | S754_finite s m e =>
      let n := match e with
               | Zneg p => round_half_even (Zpos m * 1000000) (2 ^ Zpos p)
               | _ => (Zpos m * 2 ^ e * 1000000)%Z
               end in
      match n with
      | Zpos np =>
          SF2Prim (SFdiv 53 1024 (S754_finite s np 0)
                         (S754_finite false 1000000 0))
      | _ => SF2Prim (S754_zero s)
      end
  | _ => x
  end.

(** Python treats a NaN in a numeric column as a missing value. *)
Definition isna (v : option float) : bool :=
  match v with
  | None => true
  | Some x => PrimFloat.is_nan x
  end.

(** *** Strings (ASCII) *)

(** [str.isspace] on the ASCII range: TAB..CR, FS..US and the space. *)
Definition is_space (c : ascii) : bool :=
  let n := N_of_ascii c in
  ((9 <=? n) && (n <=? 13) || (28 <=? n) && (n <=? 32))%N.

Fixpoint lstrip (s : string) : string :=
  match s with
  | String c t => if is_space c then lstrip t else s
  | EmptyString => EmptyString
  end.

Fixpoint rev_string (acc s : string) : string :=
  match s with
  | String c t => rev_string (String c acc) t
  | EmptyString => acc
  end.

Definition rstrip (s : string) : string :=
  rev_string "" (lstrip (rev_string "" s)).

(** [s.strip()] *)
Definition strip (s : string) : string := rstrip (lstrip s).

Definition lower_ascii (c : ascii) : ascii :=
  let n := N_of_ascii c in
  if ((65 <=? n) && (n <=? 90))%N then ascii_of_N (n + 32) else c.

(** [s.lower()] *)
Fixpoint lower (s : string) : string :=
  match s with
  | String c t => String (lower_ascii c) (lower t)
  | EmptyString => EmptyString
  end.

(** [needle in hay] *)
Fixpoint contains (needle hay : string) : bool :=
  String.prefix needle hay ||
  match hay with
  | String _ t => contains needle t
  | EmptyString => false
  end.

(** [s.replace(",", "")] *)
Fixpoint remove_commas (s : string) : string :=
  match s with
  | String c t =>
      if Ascii.eqb c "," then remove_commas t else String c (remove_commas t)
  | EmptyString => EmptyString
  end.

Fixpoint drop_chars (n : nat) (s : string) : string :=
  match n, s with
  | S n', String _ t => drop_chars n' t
  | _, _ => s
  end.

(** *** Calendar dates *)

Record date : Type := mk_date { year : Z; month : Z; day : Z }.

Definition digit (n : Z) : string :=
  String (ascii_of_N (Z.to_N (48 + n mod 10))) "".

(** Zero-padded decimal of width two and four. *)
Definition pad2 (n : Z) : string := (digit (n / 10) ++ digit n)%string.
Definition pad4 (n : Z) : string := (pad2 (n / 100) ++ pad2 n)%string.

(** [d.isoformat()], for the four-digit years of [datetime.date]. *)
Definition isoformat (d : date) : string :=
  (pad4 (year d) ++ "-" ++ pad2 (month d) ++ "-" ++ pad2 (day d))%string.

Definition MONTH_NAMES : list string :=
  ["January"; "February"; "March"; "April"; "May"; "June"; "July";
   "August"; "September"; "October"; "November"; "December"].

(** [d.strftime("%B")] in the English locale. *)
Definition month_name (m : Z) : string :=
  default "" (MONTH_NAMES !! Z.to_nat (m - 1)).

(** [s.split(sep)] for a separator of one character. *)
Fixpoint split_on (sep : ascii) (s : string) : list string :=
  match s with
  | EmptyString => [""]
  | String c t =>
      if Ascii.eqb c sep then "" :: split_on sep t
      else
        match split_on sep t with
        | h :: r => String c h :: r
        | [] => [String c ""]
        end
  end.

(** *** The calendar of [datetime.date] *)

Definition MAXYEAR : Z := 9999.

Definition is_leap (y : Z) : bool :=
  ((y mod 4 =? 0) && (negb (y mod 100 =? 0) || (y mod 400 =? 0)))%Z.

Definition days_in_month (y m : Z) : Z :=
  if (m =? 2)%Z then (if is_leap y then 29 else 28)%Z
  else if ((m =? 4) || (m =? 6) || (m =? 9) || (m =? 11))%Z then 30%Z
  else 31%Z.

(** The dates [datetime.date] can hold. *)
Definition valid_date (d : date) : Prop :=
  (1 ≤ year d ≤ MAXYEAR ∧ 1 ≤ month d ≤ 12
   ∧ 1 ≤ day d ≤ days_in_month (year d) (month d))%Z.

(** [d + timedelta(days=1)]; [None] is the [OverflowError] past
    [date.max]. *)
Definition next_day (d : date) : option date :=
  if (day d <? days_in_month (year d) (month d))%Z then
    Some (mk_date (year d) (month d) (day d + 1))
  else if (month d <? 12)%Z then Some (mk_date (year d) (month d + 1) 1)
  else if (year d <? MAXYEAR)%Z then Some (mk_date (year d + 1) 1 1)
  else None.

End Py.

(* ================================================================== *)
(** ** Static configuration, identical in both scripts *)
(* ================================================================== *)

Module Config.

Definition BASE_CCY : string := "USD".

Definition CURRENCIES : list string :=
  ["USD"; "ARS"; "AUD"; "BRL"; "CAD"; "CLP"; "CNY"; "AED"; "EUR"; "MXN";
   "NZD"; "PAB"; "GBP"].

Definition COUNTRY_MAP : gmap string (string * string) :=
  list_to_map
    [("USD", ("UNITED STATES", "USA"));
     ("ARS", ("ARGENTINA", "ARG"));
     ("AUD", ("AUSTRALIA", "AUS"));
     ("BRL", ("BRASIL", "BRA"));
     ("CAD", ("CANADA", "CAN"));
     ("CLP", ("CHILE", "CHL"));
     ("CNY", ("CHINA", "CHN"));
     ("AED", ("DUBAI", "UAE"));
     ("EUR", ("EUROPE", "EUR"));
     ("MXN", ("MEXICO", "MEX"));
     ("NZD", ("NEW ZEALAND", "NZ"));
     ("PAB", ("PANAMA", "PAN"));
     ("GBP", ("UNITED KINGDOM", "UK"))].

Definition XRATES_NAME_TO_ISO : gmap string string :=
  list_to_map
    [("US Dollar", "USD"); ("U.S. Dollar", "USD");
     ("Argentine Peso", "ARS");
     ("Australian Dollar", "AUD");
     ("Brazilian Real", "BRL");
     ("Canadian Dollar", "CAD");
     ("Chilean Peso", "CLP");
     ("Chinese Yuan", "CNY"); ("Chinese Yuan Renminbi", "CNY");
     ("UAE Dirham", "AED"); ("Emirati Dirham", "AED");
     ("Euro", "EUR");
     ("Mexican Peso", "MXN");
     ("New Zealand Dollar", "NZD");
     ("Panamanian Balboa", "PAB");
     ("British Pound", "GBP"); ("British Pound Sterling", "GBP")].

End Config.

(* ================================================================== *)
(** ** Data frames *)
(* ================================================================== *)

Module Frame.
Import Py.

(** A cell of a frame, or a value of a row dictionary. [VNone] is both
    [None] and the missing value pandas stores for an absent entry. *)
Inductive cell : Type :=
| VStr (s : string)
| VInt (z : Z)
| VFloat (x : float)
| VNone.

(** A dictionary literal, in the order it is written. *)
Definition pydict : Type := list (string * cell).

(** A frame: its column labels in order, and one record per row. A row
    that holds nothing for a column reads as the missing value. *)
Record frame : Type := mk_frame {
  columns : list string;
  rows : list (gmap string cell)
}.

Definition at_col (r : gmap string cell) (c : string) : cell :=
  default VNone (r !! c).

(** Labels of [a], then the labels of [b] that [a] lacks. *)
Definition union_columns (a b : list string) : list string :=
  a ++ filter (λ c, c ∉ a) b.

(** A later binding of a key replaces an earlier one, as in Python. *)
Definition dict_of (d : pydict) : gmap string cell :=
  list_to_map (reverse d).

(** [pd.DataFrame(records)]: the columns are the keys in the order of
    their first appearance. *)
Definition DataFrame (records : list pydict) : frame :=
  {| columns := foldl union_columns [] (map (map fst) records);
     rows := map dict_of records |}.

(** [df[cols]]: pandas raises [KeyError] when a label is not a column. *)
Definition select (df : frame) (cols : list string) : result frame :=
  if bool_decide (Forall (λ c, c ∈ columns df) cols) then
    Ok {| columns := cols;
          rows := map (filter (λ kv : string * cell, kv.1 ∈ cols)) (rows df) |}
  else Raise KeyError.

(** [pd.concat([a, b], ignore_index=True)] *)
Definition concat (a b : frame) : frame :=
  {| columns := union_columns (columns a) (columns b);
     rows := rows a ++ rows b |}.

(** What [drop_duplicates] compares: strings and integers by value, floats
    by numeric value (the two zeros alike), missing values all alike. *)
Inductive key_atom : Type :=
| KStr (s : string)
| KInt (z : Z)
| KNum (f : spec_float)
| KNull.

Definition cell_key (c : cell) : key_atom :=
  match c with
  | VStr s => KStr s
  | VInt z => KInt z
  | VFloat x =>
      match Prim2SF x with
      | S754_nan => KNull
      | S754_zero _ => KNum (S754_zero false)
      | f => KNum f
      end
  | VNone => KNull
  end.

#[global] Instance spec_float_eq_dec : EqDecision spec_float.
Proof. solve_decision. Defined.
#[global] Instance key_atom_eq_dec : EqDecision key_atom.
Proof. solve_decision. Defined.

Section drop_duplicates.
Context {A K : Type} `{EqDecision K} (key : A → K).

(** Rows whose key is not among [seen] nor carried by an earlier row. *)
Fixpoint keep_unseen (seen : list K) (l : list A) : list A :=
  match l with
  | [] => []
  | x :: t =>
      if bool_decide (key x ∈ seen) then keep_unseen seen t
      else x :: keep_unseen (key x :: seen) t
  end.

(** [drop_duplicates(subset=key, keep="first")] *)
Definition drop_duplicates_first (l : list A) : list A :=
  keep_unseen [] l.

(** [drop_duplicates(subset=key, keep="last")] *)
Definition drop_duplicates_last (l : list A) : list A :=
  reverse (keep_unseen [] (reverse l)).
End drop_duplicates.

Section lexicographic.
Context {A K1 K2 : Type} (f : A → K1) (g : A → K2).
Context (R1 : relation K1) (R2 : relation K2).

(** The order of a sort on two columns: by the first, and by the second
    among rows that agree on the first. *)
Definition lex_le (x y : A) : Prop :=
  (f x ≠ f y ∧ R1 (f x) (f y)) ∨ (f x = f y ∧ R2 (g x) (g y)).

#[global] Instance lex_le_dec `{EqDecision K1, RelDecision K1 K1 R1,
    RelDecision K2 K2 R2} : RelDecision lex_le.
Proof. intros x y. unfold lex_le. apply _. Defined.
End lexicographic.

Section sort_values.
Context {A : Type} (R : relation A) `{∀ x y, Decision (R x y)}.

Fixpoint insert_sorted (x : A) (l : list A) : list A :=
  match l with
  | [] => [x]
  | y :: t => if decide (R x y) then x :: l else y :: insert_sorted x t
  end.

(** [sort_values] on several keys is a stable sort: rows with equal keys
    keep their order. *)
Definition sort_values (l : list A) : list A :=
  foldr insert_sorted [] l.
End sort_values.

End Frame.

(* ================================================================== *)
(** ** The collaborators: HTTP transport, table extraction, parsing *)
(* ================================================================== *)

Module Net.
Import Py.

(** A GET, identified by the provider and the parameters the scripts
    send: the date and the set of wanted symbols. *)
Inductive request : Type :=
| XRatesHistorical (as_of : date)
| ExchangerateHost (as_of : date) (needed : gset string)
| Frankfurter (as_of : date) (needed : gset string)
| XRatesTable.

(** A decoded JSON payload: an object, with what [data.get("rates")]
    finds in it (numbers, or [null] as [None]), or anything else. *)
Inductive json : Type :=
| JObject (rates : option (gmap string (option float)))
| JOther.

Record response : Type := mk_response {
  status_ok : bool;            (* [raise_for_status()] passes *)
  content_type : string;       (* [r.headers.get("Content-Type", "")] *)
  text : string;               (* [r.text] *)
  json_body : result json      (* [r.json()] *)
}.

(** A table as [pd.read_html] returns it: labels and rows of cell texts. *)
Record table : Type := mk_table {
  tcolumns : list string;
  tbody : list (list string)
}.

(** The outside world. [http_get n req] is the outcome of the GET [req]
    issued after [n] earlier ones; [float_of_str] is [float(s)] on a
    string, [None] when it raises [ValueError]; [to_datetime] is the
    pandas date parser, [None] when it cannot parse. *)
Record extern : Type := mk_extern {
  http_get : nat → request → result response;
  read_html : string → result (list table);
  float_of_str : string → option float;
  to_datetime : string → option date
}.

(** Computations that issue GETs: the log of requests is threaded through,
    and survives a raised exception. *)
Definition M (A : Type) : Type := list request → result A * list request.

Definition ret {A} (a : A) : M A := λ log, (Ok a, log).
Definition raise {A} (e : exn) : M A := λ log, (Raise e, log).
Definition lift {A} (r : result A) : M A := λ log, (r, log).
Definition bind {A B} (m : M A) (k : A → M B) : M B :=
  λ log, match m log with
         | (Ok a, log') => k a log'
         | (Raise e, log') => (Raise e, log')
         end.
(** [try: m except Exception: h] *)
Definition try_except {A} (m : M A) (h : M A) : M A :=
  λ log, match m log with
         | (Ok a, log') => (Ok a, log')
         | (Raise _, log') => h log'
         end.

Definition get (ext : extern) (req : request) : M response :=
  λ log, (http_get ext (List.length log) req, (log ++ [req])%list).

End Net.

Notation "'let!' x ':=' m 'in' k" := (Net.bind m (λ x, k))
  (at level 10, x name, m at level 100, k at level 200,
   format "'[v' 'let!'  x  :=  m  'in' '/' k ']'").
Notation "'let?' x ':=' r 'in' k" := (Py.rbind r (λ x, k))
  (at level 10, x name, r at level 100, k at level 200,
   format "'[v' 'let?'  x  :=  r  'in' '/' k ']'").

(* ================================================================== *)
(** ** Reading a scraped table *)
(* ================================================================== *)

Module Scrape.
Import Py Net Config.

(** What [row[label]] evaluates to: the text of one cell, or the
    sub-series of several cells. *)
Inductive item : Type :=
| Scalar (s : string)
| SubSeries.

(** [row[label]] on a row of a table: a cell when exactly one column
    carries the label, the sub-series of the cells when several do, and
    [KeyError] when none does. A row shorter than the labels reads as
    padded with missing values, whose text is [nan]. *)
Definition row_get (labels row : list string) (label : string) : result item :=
  match filter (λ p : string * string, p.1 = label)
               (imap (λ i l, (l, default "nan" (row !! i))) labels) with
  | [] => Raise KeyError
  | [p] => Ok (Scalar p.2)
  | _ => Ok SubSeries
  end.

(** [XRATES_NAME_TO_ISO.get(str(x).strip())]: the text of a sub-series
    spans several lines and is no currency name. *)
Definition name_to_iso (x : item) : option string :=
  match x with
  | Scalar s => XRATES_NAME_TO_ISO !! strip s
  | SubSeries => None
  end.

(** [float(str(x).replace(",", ""))] under [try], [None] on any raise. *)
Definition rate_of (ext : extern) (x : result item) : option float :=
  match x with
  | Ok (Scalar s) => float_of_str ext (remove_commas s)
  | _ => None
  end.

(** One turn of the row loop both scripts run over a table; [Raise] is
    the [KeyError] of [row[name_col]], raised outside the inner [try]. *)
Definition scan_row (ext : extern) (labels : list string)
    (name_col rate_col : string) (row : list string)
    (rates : gmap string float) : result (gmap string float) :=
  let? name := row_get labels row name_col in
  match name_to_iso name with
  | None => Ok rates
  | Some iso =>
      match rate_of ext (row_get labels row rate_col) with
      | None => Ok rates
      | Some val => Ok (<[iso := val]> rates)
      end
  end.

(** [rates.setdefault(k, x)] *)
Definition setdefault (k : string) (x : float) (rates : gmap string float)
  : gmap string float :=
  match rates !! k with
  | Some _ => rates
  | None => <[k := x]> rates
  end.

End Scrape.

(* ================================================================== *)
(** ** [ccr_test.py]: the daily collector *)
(* ================================================================== *)

Module ccr_test.
Import Py Frame Net Scrape Config.

(** *** HTTP session and retries *)

Definition body_t (expect_json : bool) : Type :=
  if expect_json then json else string.

(** The body of the [try] in [_retry_get], once the GET has answered. *)
Definition read_body (expect_json : bool) (r : response)
  : result (body_t expect_json) :=
  match expect_json as b return result (body_t b) with
  | true =>
      if contains "json" (lower (content_type r)) then json_body r
      else Raise ValueError
  | false => Ok (text r)
  end.

(** [_retry_get(url, params, attempts=..., expect_json=...)]; [req] stands
    for the URL and its parameters. The recursion is on the attempts that
    remain; the sleep between attempts changes no result and is left out. *)
Fixpoint _retry_get (ext : extern) (req : request) (attempts : nat)
    (expect_json : bool) : M (body_t expect_json) :=
  match attempts with
  | O => raise RuntimeError
  | S n =>
      try_except
        (let! r := get ext req in lift (read_body expect_json r))
        (_retry_get ext req n expect_json)
  end.

(** *** Rate providers *)

(** The row loop of [_from_xrates] under its [try]: an exception ends the
    table, and the rates stored so far stay. *)
Fixpoint xrates_rows (ext : extern) (labels : list string)
    (name_col rate_col : string) (body : list (list string))
    (rates : gmap string float) : gmap string float :=
  match body with
  | [] => rates
  | row :: rest =>
      match scan_row ext labels name_col rate_col row rates with
      | Ok rates' => xrates_rows ext labels name_col rate_col rest rates'
      | Raise _ => rates
      end
  end.

Definition xrates_table (ext : extern) (rates : gmap string float)
    (df : table) : gmap string float :=
  match strip <$> tcolumns df with
  | name_col :: rate_col :: _ =>
      xrates_rows ext (tcolumns df) name_col rate_col (tbody df) rates
  | _ => rates
  end.

(** The loop over [tables] in [_from_xrates]. *)
Definition parse_xrates (ext : extern) (tables : list table)
  : gmap string float :=
  foldl (xrates_table ext) ∅ tables.

Definition _from_xrates (ext : extern) (as_of : date)
  : M (gmap string float) :=
  let! html := _retry_get ext (XRatesHistorical as_of) 3 false in
  let! tables := lift (read_html ext html) in
  ret (parse_xrates ext tables).

(** [data.get("rates") or {}] *)
Definition rates_or_empty (data : json)
  : result (gmap string (option float)) :=
  match data with
  | JObject rates => Ok (default ∅ rates)
  | JOther => Raise AttributeError
  end.

Definition _from_exchangerate_host (ext : extern) (as_of : date)
    (needed : gset string) : M (gmap string (option float)) :=
  let! data := _retry_get ext (ExchangerateHost as_of needed) 3 true in
  lift (rates_or_empty data).

Definition _from_frankfurter (ext : extern) (as_of : date)
    (needed : gset string) : M (gmap string (option float)) :=
  let! data := _retry_get ext (Frankfurter as_of needed) 3 true in
  lift (rates_or_empty data).

(** [required = set(CURRENCIES) - {"USD"}] *)
Definition required : gset string :=
  list_to_set CURRENCIES ∖ {[ "USD" ]}.

(** [for k, v in extra.items(): if v is not None and k not in rates:
    rates[k] = float(v)] *)
Definition merge_missing (rates : gmap string float)
    (extra : gmap string (option float)) : gmap string float :=
  map_fold
    (λ k v acc,
       match v, acc !! k with
       | Some x, None => <[k := x]> acc
       | _, _ => acc
       end)
    rates extra.

(** [_from_xrates] stores floats only, so the [is not None] filters on
    its result keep every entry. *)
Definition fetch_usd_quotes_for_date (ext : extern) (as_of : date)
  : M (gmap string float) :=
  let! xr := _from_xrates ext as_of in
  let xr_has_all := bool_decide (required ⊆ dom xr) in
  let! rates :=
    (if xr_has_all then ret xr
     else
       let rates := xr in
       let missing := required ∖ dom rates in
       let! rates :=
         (if bool_decide (missing ≠ ∅) then
            let! eh := _from_exchangerate_host ext as_of missing in
            ret (merge_missing rates eh)
          else ret rates) in
       let missing := required ∖ dom rates in
       if bool_decide (missing ≠ ∅) then
         let! fk := _from_frankfurter ext as_of missing in
         ret (merge_missing rates fk)
       else ret rates) in
  let rates := <["USD" := 1%float]> rates in
  ret (setdefault "PAB" 1%float rates).

(** *** Builders *)

(** The [conv] of one currency in [build_rows_for_date]. *)
Definition conv_for (ccy : string) (usd_to : gmap string (option float))
  : result (option float) :=
  if bool_decide (ccy = "PAB") then Ok (Some 1%float)
  else
    match usd_to !! ccy with
    | Some (Some q) =>
        let? x := truediv 1 q in Ok (Some (round6 x))
    | _ => Ok None
    end.

Definition rate_cell (conv : option float) : cell :=
  match conv with
  | Some x => VFloat x
  | None => VNone
  end.

Definition build_row (as_of : date) (ccy : string) (conv : option float)
  : pydict :=
  let '(country, ccode) := default ("", "") (COUNTRY_MAP !! ccy) in
  [("conversion_date", VStr (isoformat as_of));
   ("conversion_year", VInt (year as_of));
   ("conversion_month", VStr (month_name (month as_of)));
   ("country", VStr country);
   ("country_code", VStr ccode);
   ("currency", VStr ccy);
   ("conversion_rate", rate_cell conv)].

Fixpoint build_rows (as_of : date) (usd_to : gmap string (option float))
    (ccys : list string) : result (list pydict) :=
  match ccys with
  | [] => Ok []
  | ccy :: rest =>
      let? conv := conv_for ccy usd_to in
      let? rows := build_rows as_of usd_to rest in
      Ok (build_row as_of ccy conv :: rows)
  end.

Definition build_rows_for_date (as_of : date)
    (usd_to : gmap string (option float)) : result (list pydict) :=
  build_rows as_of usd_to CURRENCIES.

(** *** The collected table *)

(** A row of the table past the column selection of [collect_for_dates],
    its [log_date] a timestamp ([None] for [NaT]). The writer works on the
    same rows once [to_datetime], [to_numeric] and [astype(str)] have
    normalised the three columns they touch. *)
Record log_row : Type := mk_log_row {
  log_date : option date;
  conversion_year : option Z;
  conversion_month : string;
  country : string;
  country_code : string;
  currency : string;
  conversion_rate : option float
}.

Definition set_rate (v : option float) (r : log_row) : log_row :=
  {| log_date := log_date r;
     conversion_year := conversion_year r;
     conversion_month := conversion_month r;
     country := country r;
     country_code := country_code r;
     currency := currency r;
     conversion_rate := v |}.

#[global] Instance date_eq_dec : EqDecision date.
Proof. solve_decision. Defined.

Definition date_le (a b : date) : Prop :=
  (year a < year b
   ∨ (year a = year b
      ∧ (month a < month b ∨ (month a = month b ∧ day a ≤ day b))))%Z.

(** Timestamps in ascending order, [NaT] last. *)
Definition stamp_le (a b : option date) : Prop :=
  match a, b with
  | Some x, Some y => date_le x y
  | _, None => True
  | None, Some _ => False
  end.

#[global] Instance date_le_dec : RelDecision date_le.
Proof. intros a b. unfold date_le. apply _. Defined.
#[global] Instance stamp_le_dec : RelDecision stamp_le.
Proof. intros [a|] [b|]; simpl; apply _. Defined.

(** The order of [sort_values(["currency", "log_date"])]. *)
Definition by_currency_date : relation log_row :=
  lex_le currency log_date String.le stamp_le.

(** The order of [sort_values(["log_date", "currency"])]. *)
Definition by_date_currency : relation log_row :=
  lex_le log_date currency stamp_le String.le.

#[global] Instance by_currency_date_dec : RelDecision by_currency_date.
Proof. unfold by_currency_date. apply _. Defined.
#[global] Instance by_date_currency_dec : RelDecision by_date_currency.
Proof. unfold by_date_currency. apply _. Defined.

(** *** Gap filling *)

(** [s.bfill()]: a missing value takes the next valid one, if any. *)
Fixpoint bfill (s : list (option float)) : list (option float) :=
  match s with
  | [] => []
  | x :: t =>
      let t' := bfill t in
      (if isna x then
         match t' with
         | y :: _ => if isna y then x else y
         | [] => x
         end
       else x) :: t'
  end.

(** [s.ffill()], [last] being the latest valid value passed, if any. *)
Fixpoint ffill_from (last : option float) (s : list (option float))
  : list (option float) :=
  match s with
  | [] => []
  | x :: t =>
      if isna x then
        match last with
        | Some v => Some v
        | None => x
        end :: ffill_from last t
      else x :: ffill_from x t
  end.

Definition ffill (s : list (option float)) : list (option float) :=
  ffill_from None s.

(** [lambda s: s.bfill().ffill()] *)
Definition fill (s : list (option float)) : list (option float) :=
  ffill (bfill s).

(** The [conversion_rate] values of one currency, in table order. *)
Definition series (c : string) (t : list log_row) : list (option float) :=
  conversion_rate <$> filter (λ r, currency r = c) t.

(** Assigning the filled groups back: each row takes the next value of
    the group of its currency. *)
Fixpoint assign (filled : string → list (option float)) (t : list log_row)
  : list log_row :=
  match t with
  | [] => []
  | r :: rest =>
      match filled (currency r) with
      | v :: vs =>
          set_rate v r ::
          assign (λ c, if bool_decide (c = currency r) then vs else filled c)
                 rest
      | [] => r :: assign filled rest
      end
  end.

(** The sort and the grouped fill of [collect_for_dates]. *)
Definition fill_gaps (t : list log_row) : list log_row :=
  let sorted := sort_values by_currency_date t in
  assign (λ c, fill (series c sorted)) sorted.

(** The selected frame read as typed rows: [pd.to_datetime] parses the
    [log_date] strings and raises on one it cannot parse. *)
Definition cell_text (c : cell) : string :=
  match c with VStr s => s | _ => "" end.

Definition as_log_row (ext : extern) (r : gmap string cell)
  : result log_row :=
  let? d :=
    match at_col r "log_date" with
    | VStr s =>
        match to_datetime ext s with
        | Some d => Ok (Some d)
        | None => Raise ValueError
        end
    | VNone => Ok None
    | _ => Raise ValueError
    end in
  Ok {| log_date := d;
        conversion_year :=
          match at_col r "conversion_year" with VInt z => Some z | _ => None end;
        conversion_month := cell_text (at_col r "conversion_month");
        country := cell_text (at_col r "country");
        country_code := cell_text (at_col r "country_code");
        currency := cell_text (at_col r "currency");
        conversion_rate :=
          match at_col r "conversion_rate" with VFloat x => Some x | _ => None end |}.

Fixpoint as_log_rows (ext : extern) (rs : list (gmap string cell))
  : result (list log_row) :=
  match rs with
  | [] => Ok []
  | r :: rest =>
      let? row := as_log_row ext r in
      let? rows := as_log_rows ext rest in
      Ok (row :: rows)
  end.

(** The loop over [dates] in [collect_for_dates]. *)
Fixpoint collect_rows (ext : extern) (dates : list date) : M (list pydict) :=
  match dates with
  | [] => ret []
  | d :: rest =>
      let! usd_to := fetch_usd_quotes_for_date ext d in
      let! rows := lift (build_rows_for_date d (Some <$> usd_to)) in
      let! all_rows := collect_rows ext rest in
      ret (rows ++ all_rows)%list
  end.

Definition cols : list string :=
  ["log_date"; "conversion_year"; "conversion_month"; "country";
   "country_code"; "currency"; "conversion_rate"].

Definition collect_for_dates (ext : extern) (dates : list date)
  : M (list log_row) :=
  let! all_rows := collect_rows ext dates in
  let! df := lift (select (DataFrame all_rows) cols) in
  let! t := lift (as_log_rows ext (rows df)) in
  ret (fill_gaps t).

(** *** Writers *)

Inductive file : Type :=
| Absent
| Unreadable
| Stored (t : list log_row).

Record disk : Type := mk_disk {
  csv : file;
  xlsx : file;
  xlsx_locked : bool;
  archive : list file;
  alternates : list (list log_row)
}.

Definition present (f : file) : bool :=
  match f with Absent => false | _ => true end.

(** [archive_file]: the file that exists goes to the archive. *)
Definition archive_file (f : file) (arch : list file) : list file :=
  if present f then (arch ++ [f])%list else arch.

(** The composite key [(log_date, currency)]. *)
Definition row_key (r : log_row) : option date * string :=
  (log_date r, currency r).

(** The table [write_append_dedupe] writes, from the rows it read. *)
Definition append_dedupe (df_old df_new : list log_row) : list log_row :=
  let df_all := (df_old ++ df_new)%list in
  sort_values by_date_currency (drop_duplicates_last row_key df_all).

Definition write_append_dedupe (df_new : list log_row) (d : disk) : disk :=
  let df_old := match csv d with Stored t => t | _ => [] end in
  let df_all := append_dedupe df_old df_new in
  let arch := archive_file (xlsx d) (archive_file (csv d) (archive d)) in
  if xlsx_locked d then
    {| csv := Stored df_all; xlsx := xlsx d; xlsx_locked := true;
       archive := arch; alternates := (alternates d ++ [df_all])%list |}
  else
    {| csv := Stored df_all; xlsx := Stored df_all; xlsx_locked := false;
       archive := arch; alternates := alternates d |}.

(** *** Main *)

(** A rank that grows with the calendar: enough turns for the loop of
    [daterange] to run from one date up to another. *)
Definition day_rank (d : date) : Z :=
  (372 * year d + 31 * month d + day d)%Z.

(** The loop of [daterange] from [d] on, consumed by [list(...)]: [None]
    when the increment overflows. *)
Fixpoint daterange_from (turns : nat) (d end_inclusive : date)
  : option (list date) :=
  match turns with
  | O => Some []
  | S n =>
      if bool_decide (date_le d end_inclusive) then
        match next_day d with
        | Some d' =>
            match daterange_from n d' end_inclusive with
            | Some l => Some (d :: l)
            | None => None
            end
        | None => None
        end
      else Some []
  end.

(** [list(daterange(start, end_inclusive))] *)
Definition daterange (start end_inclusive : date) : option (list date) :=
  daterange_from (Z.to_nat (day_rank end_inclusive - day_rank start + 1))
                 start end_inclusive.

(** The configured "2023-01-01" as [strptime] reads it; [None] would be
    the empty string. *)
Definition BACKFILL_START_DATE : option date := Some (mk_date 2023 1 1).

(** The dates [main] collects, [today] being [date.today()]. *)
Definition main_dates (today : date) : list date :=
  match BACKFILL_START_DATE with
  | Some start_dt =>
      let start_dt :=
        if bool_decide (¬ date_le start_dt today) then today else start_dt in
      match daterange start_dt today with
      | Some dates => dates
      | None => [today]
      end
  | None => [today]
  end.

(** [main()]: a failed collection ends the run before anything is
    written. The state is the disk; the log lines are left out. *)
Definition main (ext : extern) (today : date) (d : disk) : M disk :=
  try_except
    (let! df_new := collect_for_dates ext (main_dates today) in
     ret (write_append_dedupe df_new d))
    (ret d).

End ccr_test.

(* ================================================================== *)
(** ** [new_ccr.py]: the month-block refresher *)
(* ================================================================== *)

Module new_ccr.
Import Py Frame Net Scrape Config.

(** [ym_label(y, m)]: [strftime("%Y-%B")] of the first day of the month. *)
Definition ym_label (y m : Z) : string :=
  (pad4 y ++ "-" ++ month_name m)%string.

(** [re.search(r"(currency|name)", c, re.I)], on ASCII text. *)
Definition name_pattern (c : string) : bool :=
  let l := lower c in
  contains "currency" l || contains "name" l.

(** [US\s*Dollar] somewhere in a lowered text. *)
Fixpoint us_dollar (s : string) : bool :=
  String.prefix "us" s && String.prefix "dollar" (lstrip (drop_chars 2 s)) ||
  match s with
  | String _ t => us_dollar t
  | EmptyString => false
  end.

(** [re.search(r"(US\s*Dollar|USD|1\.00|rate)", c, re.I)], on ASCII text. *)
Definition rate_pattern (c : string) : bool :=
  let l := lower c in
  us_dollar l || contains "usd" l || contains "1.00" l || contains "rate" l.

(** The loop that looks for a name and a rate column by their headers. *)
Definition detect_columns (labels : list string)
  : option string * option string :=
  foldl
    (λ '(name_col, rate_col) c,
       let name_col := if name_pattern c then Some c else name_col in
       let rate_col :=
         if rate_pattern c && bool_decide (Some c ≠ name_col) then Some c
         else rate_col in
       (name_col, rate_col))
    (None, None) labels.

(** The row loop: no [try] surrounds [row[name_col]] here. *)
Fixpoint table_rows (ext : extern) (labels : list string)
    (name_col rate_col : string) (body : list (list string))
    (rates : gmap string float) : result (gmap string float) :=
  match body with
  | [] => Ok rates
  | row :: rest =>
      let? rates' := scan_row ext labels name_col rate_col row rates in
      table_rows ext labels name_col rate_col rest rates'
  end.

(** One table: its labels are stripped in place first. *)
Definition scan_table (ext : extern) (df : table)
    (rates : gmap string float) : result (gmap string float) :=
  let labels := strip <$> tcolumns df in
  match detect_columns labels with
  | (Some name_col, Some rate_col) =>
      table_rows ext labels name_col rate_col (tbody df) rates
  | _ =>
      match labels with
      | name_col :: rate_col :: _ =>
          table_rows ext labels name_col rate_col (tbody df) rates
      | _ => Ok rates
      end
  end.

Fixpoint scan_tables (ext : extern) (tables : list table)
    (rates : gmap string float) : result (gmap string float) :=
  match tables with
  | [] => Ok rates
  | df :: rest =>
      let? rates' := scan_table ext df rates in
      scan_tables ext rest rates'
  end.

(** What [fetch_xrates_usd_to_quotes] does with the extracted tables. *)
Definition quotes_of_tables (ext : extern) (tables : list table)
  : result (gmap string float) :=
  match tables with
  | [] => Raise ValueError
  | _ =>
      let? rates := scan_tables ext tables ∅ in
      let rates := <["USD" := 1%float]> rates in
      let rates := setdefault "PAB" 1%float rates in
      if bool_decide (size rates ≤ 1)%nat then Raise ValueError else Ok rates
  end.

Definition fetch_xrates_usd_to_quotes (ext : extern)
  : M (gmap string float) :=
  let! r := get ext XRatesTable in
  let! _ := lift (if status_ok r then Ok () else Raise HTTPError) in
  let! tables := lift (read_html ext (text r)) in
  lift (quotes_of_tables ext tables).

(** The [conv] of one currency in [build_rows_for_current_month]. *)
Definition conv_for (ccy : string) (usd_to_c : gmap string (option float))
  : option float :=
  if bool_decide (ccy = "USD") then Some 1%float
  else
    match usd_to_c !! ccy with
    | Some (Some q) => if truthy q then Some (1 / q)%float else None
    | _ => None
    end.

Definition build_row (label year month_name ccy : string)
    (conv : option float) : pydict :=
  let '(country, ccode) := default ("", "") (COUNTRY_MAP !! ccy) in
  [("conversion year-month", VStr label);
   ("conversion year-month-currency", VStr (label ++ "-" ++ ccy)%string);
   ("conversion year-month-country", VStr (label ++ "-" ++ country)%string);
   ("currency-year-month", VStr (ccy ++ "-" ++ label)%string);
   ("conversion year", VStr year);
   ("conversion month", VStr month_name);
   ("country", VStr country);
   ("country code", VStr ccode);
   ("currency", VStr ccy);
   ("conversion", match conv with Some x => VFloat x | None => VNone end)].

(** [today] is [date.today()]; the two halves of the label are the year
    and the month name [label.split("-")] gives back. *)
Definition build_rows_for_current_month (today : date)
    (usd_to_c : gmap string (option float)) : list pydict :=
  let label := ym_label (year today) (month today) in
  (λ ccy, build_row label (pad4 (year today)) (month_name (month today))
                    ccy (conv_for ccy usd_to_c)) <$> CURRENCIES.

(** *** Merging into the stored files *)

Inductive file : Type :=
| Absent
| Unreadable
| Stored (df : frame).

Record disk : Type := mk_disk {
  csv : file;
  xlsx : file;
  xlsx_locked : bool;
  alternates : list frame
}.

Definition key : string := "conversion year-month-currency".

Definition row_key (r : gmap string cell) : key_atom :=
  cell_key (at_col r key).

(** [concat] then [drop_duplicates(subset=[key], keep="first")] *)
Definition merge_existing (df_old df_new : frame) : frame :=
  let df := concat df_old df_new in
  {| columns := columns df;
     rows := drop_duplicates_first row_key (rows df) |}.

Definition merge_and_write (df_new : frame) (d : disk) : disk :=
  let df_out :=
    match csv d with
    | Stored df_old_csv =>
        if bool_decide (key ∈ columns df_old_csv)
        then merge_existing df_old_csv df_new
        else df_new
    | _ => df_new
    end in
  let df_out_xlsx :=
    match xlsx d with
    | Stored df_old_xlsx =>
        if bool_decide (key ∈ columns df_old_xlsx)
        then merge_existing df_old_xlsx df_new
        else df_out
    | _ => df_out
    end in
  if xlsx_locked d then
    {| csv := Stored df_out; xlsx := xlsx d; xlsx_locked := true;
       alternates := (alternates d ++ [df_out_xlsx])%list |}
  else
    {| csv := Stored df_out; xlsx := Stored df_out_xlsx;
       xlsx_locked := false; alternates := alternates d |}.

Definition order_cols : list string :=
  ["conversion year-month"; "conversion year-month-currency";
   "conversion year-month-country"; "currency-year-month";
   "conversion year"; "conversion month"; "country"; "country code";
   "currency"; "conversion"].

(** The rows [main] builds from what the scrape returned. *)
Definition month_rows (ext : extern) (today : date) : M (list pydict) :=
  let! usd_to_c := fetch_xrates_usd_to_quotes ext in
  ret (build_rows_for_current_month today (Some <$> usd_to_c)).

Definition main (ext : extern) (today : date) (d : disk) : M disk :=
  let! rows := month_rows ext today in
  let! df_new := lift (select (DataFrame rows) order_cols) in
  ret (merge_and_write df_new d).

End new_ccr.

(* ================================================================== *)
(** ** Reference scenarios *)
(* ================================================================== *)

Module Scenario.
Import Py Frame Net Scrape Config.

Definition day : date := mk_date 2024 1 2.

Definition html_reply (page : string) : result response :=
  Ok (mk_response true "text/html; charset=utf-8" page (Raise ValueError)).

Definition json_reply (j : json) : result response :=
  Ok (mk_response true "application/json" "" (Ok j)).

(** Decimal texts the scenarios use, as [float] reads them. *)
Definition float_table (s : string) : option float :=
  if String.eqb s "0.91" then Some 0.91%float
  else if String.eqb s "2.0" then Some 2%float
  else if String.eqb s "0.0" then Some 0%float
  else if String.eqb s "3.0" then Some 3%float
  else None.

(** Date texts the scenarios use, as [pd.to_datetime] reads them. *)
Definition date_table (s : string) : option date :=
  if String.eqb s "2024-01-02" then Some day else None.

(** A world given by the x-rates tables and the two JSON answers. *)
Definition world (tables : result (list table))
    (eh fk : result response) : extern :=
  {| http_get := λ _ req,
       match req with
       | XRatesHistorical _ | XRatesTable => html_reply "x-rates"
       | ExchangerateHost _ _ => eh
       | Frankfurter _ _ => fk
       end;
     read_html := λ _, tables;
     float_of_str := float_table;
     to_datetime := date_table |}.

Definition rates_reply (l : list (string * option float)) : result response :=
  json_reply (JObject (Some (list_to_map l))).

Definition euro_table : list table :=
  [mk_table ["Currency"; "Rate"] [["Euro"; "0.91"]]].

(** Adapter A knows the euro only; adapter B answers the euro and the
    pound; adapter C has nothing. *)
Definition partial : extern :=
  world (Ok euro_table)
        (rates_reply [("EUR", Some 0.912%float); ("GBP", Some 0.78%float)])
        (json_reply (JObject None)).

(** What the resolver makes of [partial] on [day]: the map, and the GETs. *)
Definition partial_quotes : gmap string float :=
  list_to_map [("EUR", 0.91%float); ("GBP", 0.78%float); ("USD", 1%float);
               ("PAB", 1%float)].

Definition partial_log : list request :=
  [XRatesHistorical day;
   ExchangerateHost day (ccr_test.required ∖ {[ "EUR" ]});
   Frankfurter day (ccr_test.required ∖ {[ "EUR"; "GBP" ]})].

(** The daily rows built from [partial_quotes]. *)
Definition partial_rows : list pydict :=
  (λ c, ccr_test.build_row day c
          (if bool_decide (c = "USD") then Some 1%float
           else if bool_decide (c = "PAB") then Some 1%float
           else if bool_decide (c = "EUR") then Some (round6 (1 / 0.91))
           else if bool_decide (c = "GBP") then Some (round6 (1 / 0.78))
           else None)) <$> CURRENCIES.

(** x-rates is down on every attempt; the JSON providers would answer. *)
Definition xrates_down : extern :=
  {| http_get := λ _ req,
       match req with
       | XRatesHistorical _ | XRatesTable => Raise OtherError
       | _ => rates_reply ((λ c, (c, Some 2%float)) <$> CURRENCIES)
       end;
     read_html := λ _, Ok [];
     float_of_str := float_table;
     to_datetime := date_table |}.

(** x-rates lists every tracked currency at 2.0, the balboa included. *)
Definition complete : extern :=
  world (Ok [mk_table ["Currency"; "Rate"]
               ((λ name, [name; "2.0"]) <$>
                  ["Argentine Peso"; "Australian Dollar"; "Brazilian Real";
                   "Canadian Dollar"; "Chilean Peso"; "Chinese Yuan";
                   "UAE Dirham"; "Euro"; "Mexican Peso";
                   "New Zealand Dollar"; "Panamanian Balboa";
                   "British Pound"])])
        (Raise OtherError) (Raise OtherError).


(** A collected table: the euro known on the 3rd only, the pound never. *)
Definition gap_row (dd : Z) (ccy : string) (rate : option float)
  : ccr_test.log_row :=
  ccr_test.mk_log_row (Some (mk_date 2024 1 dd)) (Some 2024%Z) "January"
    "" "" ccy rate.

Definition gap_table : list ccr_test.log_row :=
  [gap_row 2 "EUR" None; gap_row 2 "GBP" None;
   gap_row 3 "EUR" (Some 1.25%float); gap_row 3 "GBP" None;
   gap_row 4 "EUR" None; gap_row 4 "GBP" None].


(** A month-block batch in which two rows share their key. *)
Definition month_record (ccy : string) (conv : float) : gmap string cell :=
  dict_of [(new_ccr.key, VStr ("2024-January-" ++ ccy)%string);
           ("conversion", VFloat conv)].


Definition distinct_batch : frame :=
  mk_frame [new_ccr.key; "conversion"]
    [month_record "EUR" 1.25%float; month_record "GBP" 1.5%float].


(** A stored CSV with other columns than the key. *)
Definition legacy_frame : frame :=
  mk_frame ["currency"; "conversion"]
    [dict_of [("currency", VStr "EUR"); ("conversion", VFloat 1.25%float)]].

Definition legacy_disk : new_ccr.disk :=
  new_ccr.mk_disk (new_ccr.Stored legacy_frame) new_ccr.Absent false [].

(** A store of the month-block writer that holds the euro at 1.5. *)
Definition euro_frame : frame :=
  mk_frame [new_ccr.key; "conversion"] [month_record "EUR" 1.5%float].

Definition euro_disk : new_ccr.disk :=
  new_ccr.mk_disk (new_ccr.Stored euro_frame) new_ccr.Absent false [].



End Scenario.

(* ================================================================== *)
(** ** Gap filling, in the words of the specification *)
(* ================================================================== *)

Module FillSpec.
Import Py.

(** A known value: one that is not missing. *)
Definition known (v : option float) : Prop := isna v = false.

#[global] Instance known_dec v : Decision (known v).
Proof. unfold known. apply _. Defined.




End FillSpec.

(* ================================================================== *)
(** * Lemmas *)
(* ================================================================== *)

Import Py Frame Net Scrape Config.

(** ** Running monadic code *)

Lemma bind_run {A B} (m : M A) (k : A → M B) log :
  bind m k log =
  match m log with
  | (Ok a, log') => k a log'
  | (Raise e, log') => (Raise e, log')
  end.
Proof. reflexivity. Qed.

Lemma bind_ok_inv {A B} (m : M A) (k : A → M B) log b log' :
  bind m k log = (Ok b, log') →
  ∃ a log1, m log = (Ok a, log1) ∧ k a log1 = (Ok b, log').
Proof.
  rewrite bind_run. destruct (m log) as [[a|e] log1]; [eauto|discriminate].
Qed.


(** A call of [_retry_get] issues its own request, between one and
    [attempts] times, and nothing else. *)
Lemma retry_get_log ext req attempts expect_json log r log' :
  ccr_test._retry_get ext req attempts expect_json log = (r, log') →
  ∃ n, n ≤ attempts ∧ log' = log ++ replicate n req.
Proof.
  revert log. induction attempts as [|n IH]; intros log; simpl.
  - intros [= <- <-]. exists 0. by rewrite app_nil_r.
  - unfold try_except. rewrite bind_run. unfold get, lift.
    destruct (http_get ext (List.length log) req) as [resp|e].
    + destruct (ccr_test.read_body expect_json resp) as [b|e].
      * intros [= <- <-]. exists 1. split; [lia|done].
      * intros (k & Hk & ->)%IH. exists (S k). split; [lia|].
        by rewrite <-app_assoc.
    + intros (k & Hk & ->)%IH. exists (S k). split; [lia|].
      by rewrite <-app_assoc.
Qed.

(** ** The columns of the collected frame *)

Lemma build_row_keys d c v : "log_date" ∉ (ccr_test.build_row d c v).*1.
Proof.
  unfold ccr_test.build_row.
  destruct (default ("", "") (COUNTRY_MAP !! c)) as [country ccode]. simpl.
  intros H. repeat (apply elem_of_cons in H as [H|H]; [discriminate|]).
  by apply elem_of_nil in H.
Qed.

Lemma build_rows_keys d usd_to ccys rows :
  ccr_test.build_rows d usd_to ccys = Ok rows →
  Forall (λ r : pydict, "log_date" ∉ r.*1) rows.
Proof.
  revert rows. induction ccys as [|c ccys IH]; intros rows; simpl.
  - intros [= <-]. constructor.
  - destruct (ccr_test.conv_for c usd_to) as [v|e]; [simpl|discriminate].
    destruct (ccr_test.build_rows d usd_to ccys) as [rs|e]; [simpl|discriminate].
    intros [= <-]. constructor; [apply build_row_keys|by apply IH].
Qed.

Lemma collect_rows_keys ext dates log rows log' :
  ccr_test.collect_rows ext dates log = (Ok rows, log') →
  Forall (λ r : pydict, "log_date" ∉ r.*1) rows.
Proof.
  revert log rows. induction dates as [|d dates IH]; intros log rows; simpl.
  - intros [= <- <-]. constructor.
  - intros (usd_to & log1 & _ & H)%bind_ok_inv.
    apply bind_ok_inv in H as (day_rows & log2 & Hb & H).
    apply bind_ok_inv in H as (rest & log3 & Hrest & H).
    injection H as <- <-. injection Hb as Hb _.
    apply Forall_app. split; [by eapply build_rows_keys|by eapply IH].
Qed.

Lemma union_columns_notin (x : string) a b :
  x ∉ a → x ∉ b → x ∉ union_columns a b.
Proof.
  intros Ha Hb. unfold union_columns.
  rewrite elem_of_app, list_elem_of_filter. tauto.
Qed.

Lemma foldl_union_columns_notin (x : string) l acc :
  x ∉ acc → Forall (λ ks, x ∉ ks) l → x ∉ foldl union_columns acc l.
Proof.
  revert acc. induction l as [|ks l IH]; intros acc Hacc Hl; simpl; [done|].
  inversion_clear Hl. apply IH; [by apply union_columns_notin|done].
Qed.

Lemma DataFrame_columns_notin (x : string) records :
  Forall (λ r : pydict, x ∉ r.*1) records → x ∉ columns (DataFrame records).
Proof.
  intros H. simpl. apply foldl_union_columns_notin; [apply not_elem_of_nil|].
  by apply Forall_fmap.
Qed.

Lemma select_missing df cols (x : string) :
  x ∈ cols → x ∉ columns df → select df cols = Raise KeyError.
Proof.
  intros Hx Hdf. unfold select. rewrite bool_decide_false; [done|].
  intros H. by apply (proj1 (Forall_forall _ _) H) in Hx.
Qed.

Lemma collect_for_dates_run ext dates log :
  ccr_test.collect_for_dates ext dates log =
  match ccr_test.collect_rows ext dates log with
  | (Ok _, log') => (Raise KeyError, log')
  | (Raise e, log') => (Raise e, log')
  end.
Proof.
  unfold ccr_test.collect_for_dates. rewrite bind_run.
  destruct (ccr_test.collect_rows ext dates log) as [[rows|e] log'] eqn:Hrows;
    [|done].
  rewrite bind_run. unfold lift.
  rewrite (select_missing _ _ "log_date"); [done|by left|].
  apply DataFrame_columns_notin. by eapply collect_rows_keys.
Qed.

(** C1, as amended. [collect_for_dates] never returns a table, whatever the
    dates and the providers: once the quotes of every date are fetched and
    its rows built, the selection of the column [log_date], which no built
    row carries, raises [KeyError]; when a fetch or a build fails first, its
    exception is the one that leaves [collect_for_dates]. *)
Theorem collect_for_dates_never_returns ext dates log :
  is_ok (ccr_test.collect_for_dates ext dates log).1 = false
  ∧ (∀ rows log',
       ccr_test.collect_rows ext dates log = (Ok rows, log') →
       ccr_test.collect_for_dates ext dates log = (Raise KeyError, log'))
  ∧ (∀ e log',
       ccr_test.collect_rows ext dates log = (Raise e, log') →
       ccr_test.collect_for_dates ext dates log = (Raise e, log')).
Proof.
  rewrite collect_for_dates_run.
  destruct (ccr_test.collect_rows ext dates log) as [[rows|e] log'].
  - split; [done|]. split; [by intros ? ? [= <- <-]|discriminate].
  - split; [done|]. split; [discriminate|by intros ? ? [= <- <-]].
Qed.

(** Witness of C1: every currency listed by x-rates on 2024-01-02. *)
Lemma collect_for_dates_never_returns_witness :
  ∃ rows log',
    ccr_test.collect_rows Scenario.complete [Scenario.day] [] = (Ok rows, log')
    ∧ ccr_test.collect_for_dates Scenario.complete [Scenario.day] []
      = (Raise KeyError, log').
Proof.
  destruct (ccr_test.collect_rows Scenario.complete [Scenario.day] [])
    as [[rows|e] log'] eqn:Hrows; [|by vm_compute in Hrows].
  exists rows, log'. split; [done|].
  destruct (collect_for_dates_never_returns Scenario.complete [Scenario.day] [])
    as (_ & H & _).
  by apply (H rows).
Defined.

(** Counterexample to C1 as stated: with x-rates down, a non-empty run
    ends in the [RuntimeError] of the exhausted retries, not in [KeyError]. *)
Lemma collect_for_dates_runtime_error :
  (ccr_test.collect_for_dates Scenario.xrates_down [Scenario.day] []).1
  = Raise RuntimeError.
Proof. vm_compute. reflexivity. Qed.

(** ** The row builders *)

Lemma conv_for_daily c usd_to :
  c ≠ "PAB" →
  ccr_test.conv_for c usd_to =
  match usd_to !! c with
  | Some (Some q) =>
      if is_zero q then Raise ZeroDivisionError
      else Ok (Some (round6 (1 / q)))
  | _ => Ok None
  end.
Proof.
  intros Hc. unfold ccr_test.conv_for. rewrite bool_decide_false by done.
  destruct (usd_to !! c) as [[q|]|]; try done.
  unfold truediv. by destruct (is_zero q).
Qed.

Lemma conv_for_pegged usd_to : ccr_test.conv_for "PAB" usd_to = Ok (Some 1%float).
Proof. reflexivity. Qed.

Lemma build_rows_ok d usd_to ccys (conv : string → option float) :
  (∀ c, c ∈ ccys → ccr_test.conv_for c usd_to = Ok (conv c)) →
  ccr_test.build_rows d usd_to ccys
  = Ok ((λ c, ccr_test.build_row d c (conv c)) <$> ccys).
Proof.
  induction ccys as [|c ccys IH]; intros H; simpl; [done|].
  rewrite H by left. simpl. rewrite IH; [done|].
  intros c' Hc'. apply H. by right.
Qed.

Lemma build_rows_inv d usd_to ccys rows :
  ccr_test.build_rows d usd_to ccys = Ok rows →
  ∃ conv : string → option float,
    (∀ c, c ∈ ccys → ccr_test.conv_for c usd_to = Ok (conv c))
    ∧ rows = (λ c, ccr_test.build_row d c (conv c)) <$> ccys.
Proof.
  revert rows. induction ccys as [|c ccys IH]; intros rows; simpl.
  - intros [= <-]. exists (λ _, None). split; [|done].
    intros c Hc. by apply elem_of_nil in Hc.
  - destruct (ccr_test.conv_for c usd_to) as [v|e] eqn:Hv; [simpl|discriminate].
    destruct (ccr_test.build_rows d usd_to ccys) as [rs|e]; [simpl|discriminate].
    intros [= <-]. destruct (IH rs eq_refl) as (conv & Hconv & ->).
    exists (λ c', match ccr_test.conv_for c' usd_to with
                  | Ok v' => v'
                  | Raise _ => None
                  end).
    split.
    + intros c' [->|Hc']%elem_of_cons; [by rewrite Hv|].
      by rewrite (Hconv c' Hc').
    + simpl. rewrite Hv. f_equal. apply list_fmap_ext.
      intros i c' Hi. rewrite (Hconv c'); [done|].
      by eapply list_elem_of_lookup_2.
Qed.

(** The defect of the daily builder next to C2: its guard covers an absent
    and a [None] quote but not a zero one, on which [1 / q] raises. *)
Example build_rows_for_date_zero_quote :
  ccr_test.build_rows_for_date Scenario.day {[ "EUR" := Some 0%float ]}
  = Raise ZeroDivisionError.
Proof. vm_compute. reflexivity. Qed.

(** C2, as amended. In the daily builder, as long as no tracked currency
    carries a zero quote, the rows are built and the row of every tracked
    currency other than USD and PAB holds [round(1/q, 6)] for a quote [q]
    and a null for an absent or [None] quote. In the month-block builder
    the row holds the unrounded [1.0 / q] for a non-zero quote [q], and a
    null for a zero, absent or [None] quote; it never raises. *)
Theorem quote_inversion d usd_to today usd_to_c :
  (∀ c q, c ∈ CURRENCIES → c ≠ "PAB" →
          usd_to !! c = Some (Some q) → is_zero q = false) →
  (∃ rows,
     ccr_test.build_rows_for_date d usd_to = Ok rows
     ∧ ∀ c, c ∈ CURRENCIES → c ≠ "USD" → c ≠ "PAB" →
         ccr_test.build_row d c
           match usd_to !! c with
           | Some (Some q) => Some (round6 (1 / q))
           | _ => None
           end ∈ rows)
  ∧ (∀ c, c ∈ CURRENCIES → c ≠ "USD" → c ≠ "PAB" →
       new_ccr.build_row
         (new_ccr.ym_label (year today) (month today))
         (pad4 (year today)) (month_name (month today)) c
         match usd_to_c !! c with
         | Some (Some q) => if is_zero q then None else Some (1 / q)%float
         | _ => None
         end ∈ new_ccr.build_rows_for_current_month today usd_to_c).
Proof.
  intros Hnz. split.
  - eexists. split.
    + apply (build_rows_ok d usd_to CURRENCIES
               (λ c, if bool_decide (c = "PAB") then Some 1%float
                     else match usd_to !! c with
                          | Some (Some q) => Some (round6 (1 / q))
                          | _ => None
                          end)).
      intros c Hc. case_bool_decide as Hp; [by subst|].
      rewrite conv_for_daily by done.
      destruct (usd_to !! c) as [[q|]|] eqn:Hq; try done.
      by rewrite (Hnz c q).
    + intros c Hc _ Hp. apply list_elem_of_fmap. exists c. split; [|done].
      by rewrite bool_decide_false.
  - intros c Hc Hu _. unfold new_ccr.build_rows_for_current_month.
    apply list_elem_of_fmap. exists c. split; [|done]. f_equal.
    unfold new_ccr.conv_for. rewrite bool_decide_false by done.
    destruct (usd_to_c !! c) as [[q|]|]; try done.
    unfold truthy. by destruct (is_zero q).
Qed.

(** Witness of C2: the euro quoted at 0.91 in the daily map, at zero in the
    month-block map. *)
Lemma quote_inversion_witness :
  (∃ rows,
     ccr_test.build_rows_for_date Scenario.day {[ "EUR" := Some 0.91%float ]}
     = Ok rows
     ∧ ccr_test.build_row Scenario.day "EUR" (Some (round6 (1 / 0.91))) ∈ rows)
  ∧ new_ccr.build_row "2024-January" "2024" "January" "EUR" None
    ∈ new_ccr.build_rows_for_current_month Scenario.day
        {[ "EUR" := Some 0%float ]}.
Proof.
  destruct (quote_inversion Scenario.day {[ "EUR" := Some 0.91%float ]}
              Scenario.day {[ "EUR" := Some 0%float ]})
    as [(rows & Hrows & Hin) Hmonth].
  - intros c q _ _ [<- [= <-]]%lookup_singleton_Some. vm_compute. reflexivity.
  - split.
    + exists rows. split; [done|].
      apply (Hin "EUR"); [compute_done|done..].
    + apply (Hmonth "EUR"); [compute_done|done..].
Defined.

(** Counterexample to C2 as stated: for the euro quoted at 3.0 the
    month-block row holds 1/3 as it is, which is not [round(1/3, 6)]. *)
Lemma month_rate_not_rounded :
  ∃ row,
    new_ccr.build_rows_for_current_month Scenario.day
      {[ "EUR" := Some 3%float ]} !! 8 = Some row
    ∧ at_col (dict_of row) "currency" = VStr "EUR"
    ∧ at_col (dict_of row) "conversion" = VFloat (1 / 3)
    ∧ (1 / 3)%float ≠ round6 (1 / 3).
Proof.
  eexists. split; [reflexivity|]. split; [by vm_compute|].
  split; [by vm_compute|]. vm_compute. discriminate.
Qed.

(** ** The quote resolver *)

Lemma setdefault_lookup k x (m : gmap string float) :
  setdefault k x m !! k = Some (default x (m !! k)).
Proof.
  unfold setdefault. destruct (m !! k) as [v|] eqn:Hk; simpl; [done|].
  apply lookup_insert_eq.
Qed.

Lemma setdefault_lookup_ne k k' x (m : gmap string float) :
  k ≠ k' → setdefault k x m !! k' = m !! k'.
Proof.
  intros Hk. unfold setdefault. destruct (m !! k); [done|].
  by apply lookup_insert_ne.
Qed.

(** The merge loop adds the non-null entries of [extra] under the keys that
    [rates] lacks, and touches nothing else. *)
Lemma merge_missing_lookup rates extra k :
  ccr_test.merge_missing rates extra !! k =
  match rates !! k with
  | Some v => Some v
  | None => extra !! k ≫= id
  end.
Proof.
  unfold ccr_test.merge_missing.
  apply (map_fold_weak_ind
           (λ (acc : gmap string float) (m : gmap string (option float)),
              acc !! k = match rates !! k with
                         | Some v => Some v
                         | None => m !! k ≫= id
                         end)).
  - rewrite lookup_empty. by destruct (rates !! k).
  - intros i v m acc Hi IH.
    destruct (decide (i = k)) as [->|Hik].
    + rewrite lookup_insert_eq. rewrite Hi in IH. simpl in IH.
      destruct v as [x|]; simpl.
      * destruct (acc !! k) as [y|] eqn:Hacc.
        -- rewrite Hacc. by destruct (rates !! k).
        -- rewrite lookup_insert_eq. by destruct (rates !! k).
      * by destruct (rates !! k).
    + rewrite lookup_insert_ne by done.
      destruct v as [x|]; [|done].
      destruct (acc !! i); [done|]. by rewrite lookup_insert_ne.
Qed.

Lemma difference_nonempty (X D : gset string) : ¬ X ⊆ D → X ∖ D ≠ ∅.
Proof.
  intros Hsub Hempty. apply Hsub. intros x Hx.
  destruct (decide (x ∈ D)) as [|Hn]; [done|].
  assert (x ∈ X ∖ D) as Hin by by apply elem_of_difference.
  rewrite Hempty in Hin. by apply not_elem_of_empty in Hin.
Qed.

Lemma difference_empty (X D : gset string) : X ⊆ D → X ∖ D = ∅.
Proof.
  intros H. apply set_eq. intros x. rewrite elem_of_difference. split.
  - intros [Hx Hn]. by apply H in Hx.
  - by intros ?%not_elem_of_empty.
Qed.

(** The resolver, one adapter after the other. *)
Lemma fetch_usd_quotes_run ext d log :
  let ensure := λ rates : gmap string float,
    setdefault "PAB" 1%float (<["USD" := 1%float]> rates) in
  ccr_test.fetch_usd_quotes_for_date ext d log =
  match ccr_test._from_xrates ext d log with
  | (Raise e, log1) => (Raise e, log1)
  | (Ok xr, log1) =>
      if bool_decide (ccr_test.required ⊆ dom xr) then (Ok (ensure xr), log1)
      else
        match ccr_test._from_exchangerate_host ext d
                (ccr_test.required ∖ dom xr) log1 with
        | (Raise e, log2) => (Raise e, log2)
        | (Ok eh, log2) =>
            let rates := ccr_test.merge_missing xr eh in
            if bool_decide (ccr_test.required ⊆ dom rates)
            then (Ok (ensure rates), log2)
            else
              match ccr_test._from_frankfurter ext d
                      (ccr_test.required ∖ dom rates) log2 with
              | (Raise e, log3) => (Raise e, log3)
              | (Ok fk, log3) =>
                  (Ok (ensure (ccr_test.merge_missing rates fk)), log3)
              end
        end
  end.
Proof.
  intros ensure. unfold ccr_test.fetch_usd_quotes_for_date.
  rewrite bind_run.
  destruct (ccr_test._from_xrates ext d log) as [[xr|e] log1]; [|done].
  rewrite bind_run. case_bool_decide as Hall; [done|].
  rewrite bind_run. rewrite (bool_decide_true (_ ≠ ∅))
    by by apply difference_nonempty.
  rewrite bind_run.
  destruct (ccr_test._from_exchangerate_host ext d _ log1) as [[eh|e] log2];
    [|done].
  unfold ret at 1. cbv beta iota.
  destruct (decide (ccr_test.required ⊆ dom (ccr_test.merge_missing xr eh)))
    as [Hall2|Hall2].
  - rewrite (bool_decide_true (_ ⊆ _)) by done.
    rewrite bool_decide_false; [done|].
    intros H. apply H. by apply difference_empty.
  - rewrite (bool_decide_false (_ ⊆ _)) by done.
    rewrite (bool_decide_true (_ ≠ ∅)) by by apply difference_nonempty.
    rewrite bind_run.
    by destruct (ccr_test._from_frankfurter ext d _ log2) as [[fk|e] log3].
Qed.

Lemma ensure_lookup_usd (r : gmap string float) :
  setdefault "PAB" 1%float (<["USD" := 1%float]> r) !! "USD" = Some 1%float.
Proof. rewrite setdefault_lookup_ne by done. apply lookup_insert_eq. Qed.

Lemma ensure_lookup_kept (r : gmap string float) k v :
  k ≠ "USD" → r !! k = Some v →
  setdefault "PAB" 1%float (<["USD" := 1%float]> r) !! k = Some v.
Proof.
  intros Hk Hv. destruct (decide (k = "PAB")) as [->|Hp].
  - by rewrite setdefault_lookup, lookup_insert_ne, Hv.
  - by rewrite setdefault_lookup_ne, lookup_insert_ne.
Qed.

Lemma fetch_usd_quotes_ok_shape ext d log rates log' :
  ccr_test.fetch_usd_quotes_for_date ext d log = (Ok rates, log') →
  ∃ r, rates = setdefault "PAB" 1%float (<["USD" := 1%float]> r).
Proof.
  rewrite fetch_usd_quotes_run.
  destruct (ccr_test._from_xrates ext d log) as [[xr|e] log1]; [|discriminate].
  case_bool_decide; [intros [= <- _]; eauto|].
  destruct (ccr_test._from_exchangerate_host ext d _ log1) as [[eh|e] log2];
    [|discriminate].
  cbv zeta. case_bool_decide; [intros [= <- _]; eauto|].
  destruct (ccr_test._from_frankfurter ext d _ log2) as [[fk|e] log3];
    [|discriminate].
  intros [= <- _]; eauto.
Qed.

Lemma from_xrates_log ext d log r log1 :
  ccr_test._from_xrates ext d log = (r, log1) →
  ∃ n, n ≤ 3 ∧ log1 = log ++ replicate n (XRatesHistorical d).
Proof.
  unfold ccr_test._from_xrates. rewrite bind_run.
  destruct (ccr_test._retry_get ext (XRatesHistorical d) 3 false log)
    as [[html|e] l1] eqn:Hget;
    apply retry_get_log in Hget as (n & Hn & ->).
  - rewrite bind_run. unfold lift, ret.
    destruct (read_html ext html); intros [= _ <-]; eauto.
  - intros [= _ <-]; eauto.
Qed.

Lemma from_exchangerate_host_log ext d needed log r log1 :
  ccr_test._from_exchangerate_host ext d needed log = (r, log1) →
  ∃ n, n ≤ 3 ∧ log1 = log ++ replicate n (ExchangerateHost d needed).
Proof.
  unfold ccr_test._from_exchangerate_host. rewrite bind_run.
  destruct (ccr_test._retry_get ext (ExchangerateHost d needed) 3 true log)
    as [[data|e] l1] eqn:Hget;
    apply retry_get_log in Hget as (n & Hn & ->); intros [= _ <-]; eauto.
Qed.

Lemma from_frankfurter_log ext d needed log r log1 :
  ccr_test._from_frankfurter ext d needed log = (r, log1) →
  ∃ n, n ≤ 3 ∧ log1 = log ++ replicate n (Frankfurter d needed).
Proof.
  unfold ccr_test._from_frankfurter. rewrite bind_run.
  destruct (ccr_test._retry_get ext (Frankfurter d needed) 3 true log)
    as [[data|e] l1] eqn:Hget;
    apply retry_get_log in Hget as (n & Hn & ->); intros [= _ <-]; eauto.
Qed.

(** C3, as amended. In the daily flow, whatever the adapters answer, the
    rows built from a resolved quote map give USD and PAB the rate 1.0: the
    resolver forces the USD quote to 1.0 and the builder forces the PAB
    rate. In the month-block flow the USD rate is 1.0, while the PAB rate
    is 1.0 only as a default: it follows the x-rates quote for the balboa
    whenever the scraped tables list one. *)
Theorem base_and_pegged_rates ext d log usd_to log' rows today tables usd_to_c :
  ccr_test.fetch_usd_quotes_for_date ext d log = (Ok usd_to, log') →
  ccr_test.build_rows_for_date d (Some <$> usd_to) = Ok rows →
  new_ccr.quotes_of_tables ext tables = Ok usd_to_c →
  (ccr_test.build_row d "USD" (Some 1%float) ∈ rows
   ∧ ccr_test.build_row d "PAB" (Some 1%float) ∈ rows)
  ∧ (let month_row := new_ccr.build_row
         (new_ccr.ym_label (year today) (month today))
         (pad4 (year today)) (month_name (month today)) in
     let month_rows :=
       new_ccr.build_rows_for_current_month today (Some <$> usd_to_c) in
     month_row "USD" (Some 1%float) ∈ month_rows
     ∧ ∃ scanned,
         new_ccr.scan_tables ext tables ∅ = Ok scanned
         ∧ month_row "PAB"
             match scanned !! "PAB" with
             | None => Some 1%float
             | Some q => if is_zero q then None else Some (1 / q)%float
             end ∈ month_rows).
Proof.
  intros Hfetch Hbuild Hquotes. split.
  - apply fetch_usd_quotes_ok_shape in Hfetch as [r ->].
    apply build_rows_inv in Hbuild as (conv & Hconv & ->).
    assert (conv "USD" = Some 1%float) as Husd.
    { assert ("USD" ∈ CURRENCIES) as Hin by compute_done.
      specialize (Hconv "USD" Hin). rewrite conv_for_daily in Hconv by done.
      rewrite lookup_fmap, ensure_lookup_usd in Hconv. simpl in Hconv.
      by injection Hconv as <-. }
    assert (conv "PAB" = Some 1%float) as Hpab.
    { assert ("PAB" ∈ CURRENCIES) as Hin by compute_done.
      specialize (Hconv "PAB" Hin). rewrite conv_for_pegged in Hconv.
      by injection Hconv as <-. }
    split; apply list_elem_of_fmap.
    + exists "USD". rewrite Husd. split; [done|compute_done].
    + exists "PAB". rewrite Hpab. split; [done|compute_done].
  - cbv zeta. split.
    + apply list_elem_of_fmap. exists "USD". split; [done|compute_done].
    + unfold new_ccr.quotes_of_tables in Hquotes.
      destruct tables as [|t ts]; [discriminate|].
      destruct (new_ccr.scan_tables ext (t :: ts) ∅) as [scanned|e];
        [simpl in Hquotes|discriminate].
      case_bool_decide; [discriminate|]. injection Hquotes as <-.
      exists scanned. split; [done|].
      apply list_elem_of_fmap. exists "PAB". split; [|compute_done].
      f_equal. unfold new_ccr.conv_for. rewrite bool_decide_false by done.
      rewrite lookup_fmap, setdefault_lookup, lookup_insert_ne by done.
      destruct (scanned !! "PAB") as [q|]; simpl; [|done].
      unfold truthy. by destruct (is_zero q).
Qed.

(** Witness of C3: x-rates lists the euro only, the pound comes from the
    second adapter, and the daily rows give USD and PAB the rate 1.0. *)
Lemma base_and_pegged_rates_witness :
  ccr_test.build_row Scenario.day "USD" (Some 1%float)
    ∈ Scenario.partial_rows
  ∧ ccr_test.build_row Scenario.day "PAB" (Some 1%float)
    ∈ Scenario.partial_rows.
Proof.
  assert (ccr_test.fetch_usd_quotes_for_date Scenario.partial Scenario.day []
          = (Ok Scenario.partial_quotes, Scenario.partial_log)) as Hfetch
    by (vm_compute; reflexivity).
  assert (ccr_test.build_rows_for_date Scenario.day
            (Some <$> Scenario.partial_quotes)
          = Ok Scenario.partial_rows) as Hbuild
    by (vm_compute; reflexivity).
  assert (new_ccr.quotes_of_tables Scenario.partial Scenario.euro_table
          = Ok (list_to_map [("EUR", 0.91%float); ("USD", 1%float);
                             ("PAB", 1%float)])) as Hquotes
    by (vm_compute; reflexivity).
  exact (proj1 (base_and_pegged_rates Scenario.partial Scenario.day []
                  Scenario.partial_quotes Scenario.partial_log
                  Scenario.partial_rows Scenario.day Scenario.euro_table _
                  Hfetch Hbuild Hquotes)).
Defined.

(** Counterexample to C3 as stated: x-rates lists the balboa at 2.0, and
    the PAB row of the month block holds 0.5, not 1.0. *)
Lemma month_pegged_rate_follows_quote :
  ∃ rows log' row,
    new_ccr.month_rows Scenario.complete Scenario.day [] = (Ok rows, log')
    ∧ rows !! 11 = Some row
    ∧ at_col (dict_of row) "currency" = VStr "PAB"
    ∧ at_col (dict_of row) "conversion" = VFloat 0.5.
Proof.
  do 3 eexists. split; [by vm_compute|].
  split; [reflexivity|]. split; by vm_compute.
Qed.

(** C4, as amended. The resolver has no handler around its adapters: when
    an adapter it queries fails (its retries exhausted or its payload not
    the expected shape), the failure leaves [fetch_usd_quotes_for_date] as
    it is, with the request log of the failing adapter, so that no adapter
    after it is queried. *)
Theorem adapter_failure_propagates ext d log e log' :
  ccr_test._from_xrates ext d log = (Raise e, log')
  ∨ (∃ xr log1,
       ccr_test._from_xrates ext d log = (Ok xr, log1)
       ∧ ¬ ccr_test.required ⊆ dom xr
       ∧ ccr_test._from_exchangerate_host ext d
           (ccr_test.required ∖ dom xr) log1 = (Raise e, log'))
  ∨ (∃ xr log1 eh log2,
       ccr_test._from_xrates ext d log = (Ok xr, log1)
       ∧ ¬ ccr_test.required ⊆ dom xr
       ∧ ccr_test._from_exchangerate_host ext d
           (ccr_test.required ∖ dom xr) log1 = (Ok eh, log2)
       ∧ ¬ ccr_test.required ⊆ dom (ccr_test.merge_missing xr eh)
       ∧ ccr_test._from_frankfurter ext d
           (ccr_test.required ∖ dom (ccr_test.merge_missing xr eh)) log2
         = (Raise e, log')) →
  ccr_test.fetch_usd_quotes_for_date ext d log = (Raise e, log').
Proof.
  rewrite fetch_usd_quotes_run.
  intros [Hxr|[(xr & log1 & Hxr & Hall & Heh)
              |(xr & log1 & eh & log2 & Hxr & Hall & Heh & Hall2 & Hfk)]];
    rewrite Hxr; [done| |].
  - rewrite bool_decide_false by done. by rewrite Heh.
  - rewrite bool_decide_false by done. rewrite Heh. cbv zeta.
    rewrite bool_decide_false by done. by rewrite Hfk.
Qed.

(** Witness of C4: x-rates down on every attempt. *)
Lemma adapter_failure_propagates_witness :
  ccr_test.fetch_usd_quotes_for_date Scenario.xrates_down Scenario.day []
  = (Raise RuntimeError, replicate 3 (XRatesHistorical Scenario.day)).
Proof.
  apply adapter_failure_propagates. left. vm_compute. reflexivity.
Defined.

(** Counterexample to C4 as stated: x-rates fails three times while both
    JSON providers would answer every currency; the resolver raises
    [RuntimeError] and has queried neither of them. *)
Lemma resolver_propagates_failure :
  ccr_test.fetch_usd_quotes_for_date Scenario.xrates_down Scenario.day []
  = (Raise RuntimeError,
     [XRatesHistorical Scenario.day; XRatesHistorical Scenario.day;
      XRatesHistorical Scenario.day])
  ∧ ccr_test._from_exchangerate_host Scenario.xrates_down Scenario.day
      ccr_test.required []
    = (Ok (list_to_map ((λ c, (c, Some 2%float)) <$> CURRENCIES)),
       [ExchangerateHost Scenario.day ccr_test.required]).
Proof. split; vm_compute; reflexivity. Qed.

(** C5. A value obtained from a higher-priority adapter is never replaced
    by a lower-priority one: whenever the resolver returns, every non-base
    quote of x-rates is in the resolved map; exchangerate.host is queried
    for exactly the currencies x-rates left missing (its GETs carry that
    set) and supplies only keys x-rates lacks; Frankfurter is queried for
    exactly the currencies still missing then and supplies only keys the
    first two lack. *)
Theorem higher_priority_value_kept ext d log rates log' :
  ccr_test.fetch_usd_quotes_for_date ext d log = (Ok rates, log') →
  ∃ xr log1,
    ccr_test._from_xrates ext d log = (Ok xr, log1)
    ∧ (∀ k v, k ≠ "USD" → xr !! k = Some v → rates !! k = Some v)
    ∧ (ccr_test.required ⊆ dom xr → log' = log1)
    ∧ (¬ ccr_test.required ⊆ dom xr →
       ∃ eh log2 n2,
         ccr_test._from_exchangerate_host ext d
           (ccr_test.required ∖ dom xr) log1 = (Ok eh, log2)
         ∧ log2 = log1 ++ replicate n2
                    (ExchangerateHost d (ccr_test.required ∖ dom xr))
         ∧ (∀ k v, k ≠ "USD" → xr !! k = None → eh !! k = Some (Some v) →
                   rates !! k = Some v)
         ∧ (ccr_test.required ⊆ dom (ccr_test.merge_missing xr eh) →
            log' = log2)
         ∧ (¬ ccr_test.required ⊆ dom (ccr_test.merge_missing xr eh) →
            ∃ fk n3,
              ccr_test._from_frankfurter ext d
                (ccr_test.required ∖ dom (ccr_test.merge_missing xr eh)) log2
              = (Ok fk, log')
              ∧ log' = log2 ++ replicate n3
                         (Frankfurter d
                            (ccr_test.required
                               ∖ dom (ccr_test.merge_missing xr eh)))
              ∧ ∀ k v, k ≠ "USD" →
                       ccr_test.merge_missing xr eh !! k = None →
                       fk !! k = Some (Some v) → rates !! k = Some v)).
Proof.
  rewrite fetch_usd_quotes_run.
  destruct (ccr_test._from_xrates ext d log) as [[xr|e] log1]; [|discriminate].
  intros H. exists xr, log1. split; [done|].
  destruct (decide (ccr_test.required ⊆ dom xr)) as [Hall|Hall].
  { rewrite bool_decide_true in H by done. injection H as <- <-.
    split; [intros k v Hk Hv; by apply ensure_lookup_kept|].
    split; [done|]. by intros []. }
  rewrite bool_decide_false in H by done.
  destruct (ccr_test._from_exchangerate_host ext d _ log1)
    as [[eh|e] log2] eqn:Heh; [|discriminate].
  destruct (from_exchangerate_host_log _ _ _ _ _ _ Heh) as (n2 & _ & Hlog2).
  cbv zeta in H.
  destruct (decide (ccr_test.required ⊆ dom (ccr_test.merge_missing xr eh)))
    as [Hall2|Hall2].
  { rewrite bool_decide_true in H by done. injection H as <- <-.
    split.
    { intros k v Hk Hv. apply ensure_lookup_kept; [done|].
      by rewrite merge_missing_lookup, Hv. }
    split; [done|]. intros _. exists eh, log2, n2. split; [done|].
    split; [done|]. split.
    { intros k v Hk Hxr Hv. apply ensure_lookup_kept; [done|].
      by rewrite merge_missing_lookup, Hxr, Hv. }
    split; [done|]. by intros []. }
  rewrite bool_decide_false in H by done.
  destruct (ccr_test._from_frankfurter ext d _ log2)
    as [[fk|e] log3] eqn:Hfk; [|discriminate].
  destruct (from_frankfurter_log _ _ _ _ _ _ Hfk) as (n3 & _ & Hlog3).
  injection H as <- <-.
  split.
  { intros k v Hk Hv. apply ensure_lookup_kept; [done|].
    by rewrite !merge_missing_lookup, Hv. }
  split; [done|]. intros _. exists eh, log2, n2. split; [done|].
  split; [done|]. split.
  { intros k v Hk Hxr Hv. apply ensure_lookup_kept; [done|].
    by rewrite !merge_missing_lookup, Hxr, Hv. }
  split; [done|]. intros _. exists fk, n3. split; [done|]. split; [done|].
  intros k v Hk Hnone Hv. apply ensure_lookup_kept; [done|].
  by rewrite merge_missing_lookup, Hnone, Hv.
Qed.

(** The example of C5: adapter A returns the euro at 0.91 only, adapter B
    the euro at 0.912 and the pound at 0.78. The euro of A is kept, the
    pound of B is added, the base is 1.0 (and so is the PAB default). *)
Example resolver_example :
  ccr_test.fetch_usd_quotes_for_date Scenario.partial Scenario.day []
  = (Ok Scenario.partial_quotes, Scenario.partial_log)
  ∧ Scenario.partial_quotes !! "EUR" = Some 0.91%float
  ∧ Scenario.partial_quotes !! "GBP" = Some 0.78%float
  ∧ Scenario.partial_quotes !! "USD" = Some 1%float.
Proof. repeat split; vm_compute; reflexivity. Qed.

(** Witness of C5, on the same example. *)
Lemma higher_priority_value_kept_witness :
  ∃ xr log1,
    ccr_test._from_xrates Scenario.partial Scenario.day [] = (Ok xr, log1)
    ∧ (∀ k v, k ≠ "USD" → xr !! k = Some v →
              Scenario.partial_quotes !! k = Some v).
Proof.
  assert (ccr_test.fetch_usd_quotes_for_date Scenario.partial Scenario.day []
          = (Ok Scenario.partial_quotes, Scenario.partial_log)) as Hfetch
    by (vm_compute; reflexivity).
  destruct (higher_priority_value_kept _ _ _ _ _ Hfetch)
    as (xr & log1 & Hxr & Hkept & _).
  exists xr, log1. exact (conj Hxr Hkept).
Defined.

(** C6. When the result of x-rates covers every tracked currency other than
    the base, the resolver returns that result (with the base forced to 1.0
    and PAB defaulted) and the only requests it has issued are the GETs of
    x-rates: no lower-priority adapter is queried. *)
Theorem first_adapter_full_coverage ext d log xr log1 :
  ccr_test._from_xrates ext d log = (Ok xr, log1) →
  ccr_test.required ⊆ dom xr →
  ccr_test.fetch_usd_quotes_for_date ext d log
  = (Ok (setdefault "PAB" 1%float (<["USD" := 1%float]> xr)), log1)
  ∧ ∃ n, n ≤ 3 ∧ log1 = log ++ replicate n (XRatesHistorical d).
Proof.
  intros Hxr Hall. split.
  - by rewrite fetch_usd_quotes_run, Hxr, bool_decide_true.
  - by eapply from_xrates_log.
Qed.

(** Witness of C6: x-rates lists all twelve currencies. *)
Lemma first_adapter_full_coverage_witness :
  (ccr_test.fetch_usd_quotes_for_date Scenario.complete Scenario.day []).2
  = [XRatesHistorical Scenario.day].
Proof.
  assert (ccr_test._from_xrates Scenario.complete Scenario.day []
          = (Ok (list_to_map ((λ c, (c, 2%float)) <$> tail CURRENCIES)),
             [XRatesHistorical Scenario.day])) as Hxr
    by (vm_compute; reflexivity).
  assert (ccr_test.required
            ⊆ dom (list_to_map ((λ c, (c, 2%float)) <$> tail CURRENCIES)
                   : gmap string float)) as Hall
    by compute_done.
  rewrite (proj1 (first_adapter_full_coverage _ _ _ _ _ Hxr Hall)).
  reflexivity.
Defined.

(** ** Sorting *)

Section sort_values_facts.
Context {A : Type} (R : relation A) `{∀ x y, Decision (R x y)}.

Lemma insert_sorted_perm x l : insert_sorted R x l ≡ₚ x :: l.
Proof.
  induction l as [|y l IH]; simpl; [done|].
  case_decide; [done|]. rewrite IH. apply Permutation_swap.
Qed.

Lemma sort_values_perm l : sort_values R l ≡ₚ l.
Proof.
  induction l as [|x l IH]; simpl; [done|].
  fold (sort_values R l). by rewrite insert_sorted_perm, IH.
Qed.

Context `{!Total R}.

Lemma insert_sorted_HdRel x y l :
  R y x → HdRel R y l → HdRel R y (insert_sorted R x l).
Proof.
  intros Hyx Hl. destruct l as [|z l]; simpl; [by constructor|].
  case_decide; constructor; [done|]. by inversion Hl.
Qed.

Lemma insert_sorted_Sorted x l : Sorted R l → Sorted R (insert_sorted R x l).
Proof.
  induction 1 as [|y l Hl IH Hy]; simpl; [by repeat constructor|].
  case_decide as Hxy.
  - constructor; [by constructor|by constructor].
  - constructor; [done|]. apply insert_sorted_HdRel; [|done].
    by destruct (total R x y).
Qed.

Lemma sort_values_Sorted l : Sorted R (sort_values R l).
Proof.
  induction l as [|x l IH]; simpl; [constructor|].
  by apply insert_sorted_Sorted.
Qed.
End sort_values_facts.

(** ** Gap filling *)

Import FillSpec.


















(** ** The orders of the two sorts *)

#[local] Instance date_le_po : PartialOrder ccr_test.date_le.
Proof.
  split; [split|].
  - intros [y m d]. unfold ccr_test.date_le. simpl. lia.
  - intros [y1 m1 d1] [y2 m2 d2] [y3 m3 d3]. unfold ccr_test.date_le.
    simpl. lia.
  - intros [y1 m1 d1] [y2 m2 d2]. unfold ccr_test.date_le. simpl.
    intros H1 H2. f_equal; lia.
Qed.

#[local] Instance date_le_total : Total ccr_test.date_le.
Proof.
  intros [y1 m1 d1] [y2 m2 d2]. unfold ccr_test.date_le. simpl. lia.
Qed.

#[local] Instance stamp_le_po : PartialOrder ccr_test.stamp_le.
Proof.
  split; [split|].
  - intros [a|]; simpl; [reflexivity|done].
  - intros [a|] [b|] [c|]; simpl; try done. apply transitivity.
  - intros [a|] [b|]; simpl; try done. intros H1 H2. f_equal.
    by apply (anti_symm ccr_test.date_le).
Qed.

#[local] Instance stamp_le_total : Total ccr_test.stamp_le.
Proof.
  intros [a|] [b|]; unfold ccr_test.stamp_le.
  - apply (total ccr_test.date_le).
  - by left.
  - by right.
  - by left.
Qed.

Section lexicographic_facts.
Context {A K1 K2 : Type} (f : A → K1) (g : A → K2).
Context (R1 : relation K1) (R2 : relation K2).
Context `{EqDecision K1, !PartialOrder R1, !Total R1}.
Context `{!PartialOrder R2, !Total R2}.

#[local] Instance lex_le_total : Total (lex_le f g R1 R2).
Proof.
  intros x y. unfold lex_le. destruct (decide (f x = f y)) as [Heq|Hne].
  - destruct (total R2 (g x) (g y)); [left|right]; right; by split.
  - destruct (total R1 (f x) (f y)); [left|right]; left; split; congruence.
Qed.

#[local] Instance lex_le_trans : Transitive (lex_le f g R1 R2).
Proof.
  intros x y z [[Hn1 H1]|[He1 H1]] [[Hn2 H2]|[He2 H2]].
  - left. split; [|by etrans]. intros Heq. rewrite <-Heq in H2.
    apply Hn1. by apply (anti_symm R1).
  - left. rewrite <-He2. by split.
  - left. rewrite He1. by split.
  - right. split; [congruence|by etrans].
Qed.


End lexicographic_facts.




(** ** Dropping duplicates *)

Lemma filter_ext_elem {A} (P Q : A → Prop)
    `{∀ x, Decision (P x), ∀ x, Decision (Q x)} (l : list A) :
  (∀ x, x ∈ l → P x ↔ Q x) → filter P l = filter Q l.
Proof.
  induction l as [|x l IH]; intros Hext; [done|].
  assert (filter P l = filter Q l) as Hl.
  { apply IH. intros y Hy. apply Hext. by right. }
  destruct (decide (P x)) as [Hp|Hp].
  - rewrite !filter_cons_True; [by rewrite Hl|by apply Hext; [left|]|done].
  - rewrite !filter_cons_False; [done| |done].
    intros Hq. apply Hp, Hext; [by left|done].
Qed.

Lemma filter_all {A} (P : A → Prop) `{∀ x, Decision (P x)} (l : list A) :
  (∀ x, x ∈ l → P x) → filter P l = l.
Proof.
  induction l as [|x l IH]; intros Hall; [done|].
  rewrite filter_cons_True by (apply Hall; by left).
  f_equal. apply IH. intros y Hy. apply Hall. by right.
Qed.


Section drop_duplicates_facts.
Context {A K : Type} `{EqDecision K} (key : A → K).

Lemma keep_unseen_ext seen1 seen2 l :
  (∀ k, k ∈ seen1 ↔ k ∈ seen2) →
  keep_unseen key seen1 l = keep_unseen key seen2 l.
Proof.
  revert seen1 seen2. induction l as [|x l IH]; intros s1 s2 Hs; simpl; [done|].
  rewrite (bool_decide_ext _ _ (Hs (key x))).
  case_bool_decide; [by apply IH|]. f_equal. apply IH.
  intros k. rewrite !elem_of_cons. by rewrite Hs.
Qed.

Lemma keep_unseen_app seen l1 l2 :
  keep_unseen key seen (l1 ++ l2)
  = keep_unseen key seen l1 ++ keep_unseen key ((key <$> l1) ++ seen) l2.
Proof.
  revert seen. induction l1 as [|x l1 IH]; intros seen; simpl; [done|].
  case_bool_decide as Hx.
  - rewrite IH. f_equal. apply keep_unseen_ext. intros k.
    rewrite elem_of_cons, !elem_of_app.
    split; [tauto|]. intros [->|?]; tauto.
  - rewrite IH. simpl. do 2 f_equal. apply keep_unseen_ext. intros k.
    rewrite !elem_of_cons, !elem_of_app, elem_of_cons. tauto.
Qed.

Lemma elem_of_keep_unseen seen l x :
  x ∈ keep_unseen key seen l → x ∈ l ∧ key x ∉ seen.
Proof.
  revert seen. induction l as [|y l IH]; intros seen; simpl.
  { by intros ?%elem_of_nil. }
  case_bool_decide as Hy.
  - intros [? ?]%IH. split; [by right|done].
  - intros [->|[? Hn]%IH]%elem_of_cons; [split; [by left|done]|].
    split; [by right|]. intros ?. apply Hn. by right.
Qed.


Lemma keep_unseen_NoDup seen l : NoDup (key <$> keep_unseen key seen l).
Proof.
  revert seen. induction l as [|y l IH]; intros seen; simpl; [constructor|].
  case_bool_decide as Hy; [apply IH|]. csimpl. apply NoDup_cons.
  split; [|apply IH].
  intros (x & Hkey & [_ Hn]%elem_of_keep_unseen)%list_elem_of_fmap.
  apply Hn. rewrite <-Hkey. by left.
Qed.

Lemma keep_unseen_filter seen l :
  NoDup (key <$> l) →
  keep_unseen key seen l = filter (λ x, key x ∉ seen) l.
Proof.
  revert seen. induction l as [|y l IH]; intros seen Hnd; simpl; [done|].
  apply NoDup_cons in Hnd as [Hy Hnd].
  case_bool_decide as Hseen.
  - rewrite filter_cons_False by tauto. by apply IH.
  - rewrite filter_cons_True by done. f_equal. rewrite IH by done.
    apply filter_ext_elem. intros x Hx. rewrite not_elem_of_cons.
    split; [tauto|]. intros Hn. split; [|done].
    intros Heq. apply Hy. rewrite <-Heq. by apply list_elem_of_fmap_2.
Qed.


Lemma keep_unseen_id l :
  NoDup (key <$> l) → keep_unseen key [] l = l.
Proof.
  intros Hnd. rewrite keep_unseen_filter by done.
  apply filter_all. intros x _. apply not_elem_of_nil.
Qed.




Lemma drop_duplicates_last_NoDup l :
  NoDup (key <$> drop_duplicates_last key l).
Proof.
  unfold drop_duplicates_last. rewrite fmap_reverse, reverse_Permutation.
  apply keep_unseen_NoDup.
Qed.

End drop_duplicates_facts.


(** The fill on the reference table: the euro takes 1.25 on all three days
    and the pound, never known, stays null. *)
Example gap_filling_example :
  ccr_test.conversion_rate <$> ccr_test.fill_gaps Scenario.gap_table
  = [Some 1.25%float; Some 1.25%float; Some 1.25%float; None; None; None].
Proof. vm_compute. reflexivity. Qed.

(** ** Merging *)







(** The frame the month-block writer leaves in the CSV. *)
Lemma merge_and_write_csv df_new d :
  new_ccr.csv (new_ccr.merge_and_write df_new d) =
  new_ccr.Stored
    match new_ccr.csv d with
    | new_ccr.Stored df_old =>
        if bool_decide (new_ccr.key ∈ columns df_old)
        then new_ccr.merge_existing df_old df_new else df_new
    | _ => df_new
    end.
Proof. unfold new_ccr.merge_and_write. by destruct (new_ccr.xlsx_locked d). Qed.







(** ** Reading tables without raising *)












(** C10. When the stored CSV is readable but lacks the column
    "conversion year-month-currency", [merge_and_write] writes the new rows
    alone to the CSV: none of the rows stored before is kept. *)
Theorem missing_key_column_discards_stored df_new d df_old :
  new_ccr.csv d = new_ccr.Stored df_old →
  new_ccr.key ∉ columns df_old →
  new_ccr.csv (new_ccr.merge_and_write df_new d) = new_ccr.Stored df_new.
Proof.
  intros Hcsv Hkey. rewrite merge_and_write_csv, Hcsv.
  by rewrite bool_decide_false.
Qed.

(** Witness of C10: a stored CSV with the columns [currency] and
    [conversion] only. *)
Lemma missing_key_column_discards_stored_witness :
  new_ccr.csv (new_ccr.merge_and_write Scenario.distinct_batch
                 Scenario.legacy_disk)
  = new_ccr.Stored Scenario.distinct_batch.
Proof.
  apply (missing_key_column_discards_stored Scenario.distinct_batch
           Scenario.legacy_disk Scenario.legacy_frame).
  - reflexivity.
  - apply (bool_decide_unpack _). vm_compute. exact I.
Defined.

(* ================================================================== *)
(** * Further properties of the two scripts *)
(* ================================================================== *)

(** ** The retry loop *)

Lemma retry_get_step ext req n expect_json log :
  ccr_test._retry_get ext req (S n) expect_json log =
  match (let? r := http_get ext (List.length log) req in
         ccr_test.read_body expect_json r) with
  | Ok body => (Ok body, log ++ [req])
  | Raise _ => ccr_test._retry_get ext req n expect_json (log ++ [req])
  end.
Proof.
  simpl. unfold try_except. rewrite bind_run. unfold get, lift.
  destruct (http_get ext (List.length log) req) as [r|e]; simpl; [|done].
  by destruct (ccr_test.read_body expect_json r).
Qed.

(** X1. [_retry_get] returns a body exactly when one of its [attempts]
    tries is answered by an acceptable response: it returns the body of the
    first such try and has issued one GET per try up to that one. *)
Theorem retry_get_returns ext req attempts expect_json log body log' :
  ccr_test._retry_get ext req attempts expect_json log = (Ok body, log')
  ↔ ∃ n, n < attempts
      ∧ (∀ i, i < n →
           is_ok (let? r := http_get ext (List.length log + i) req in
                  ccr_test.read_body expect_json r) = false)
      ∧ (let? r := http_get ext (List.length log + n) req in
         ccr_test.read_body expect_json r) = Ok body
      ∧ log' = log ++ replicate (S n) req.
Proof.
  revert log. induction attempts as [|k IH]; intros log.
  { simpl. split; [discriminate|]. intros (n & Hn & _). lia. }
  rewrite retry_get_step.
  destruct (let? r := http_get ext (List.length log) req in
            ccr_test.read_body expect_json r) as [b0|e0] eqn:Hfirst.
  - split.
    + intros [= <- <-]. exists 0. rewrite Nat.add_0_r.
      split; [lia|]. split; [intros i Hi; lia|]. by split.
    + intros (n & Hn & Hfail & Hgood & ->). destruct n as [|n].
      * rewrite Nat.add_0_r, Hfirst in Hgood. by injection Hgood as ->.
      * specialize (Hfail 0 ltac:(lia)).
        rewrite Nat.add_0_r, Hfirst in Hfail. discriminate.
  - rewrite IH. rewrite length_app. simpl. split.
    + intros (n & Hn & Hfail & Hgood & ->). exists (S n).
      split; [lia|]. split; [|split].
      * intros [|i] Hi; [by rewrite Nat.add_0_r, Hfirst|].
        replace (List.length log + S i) with (List.length log + 1 + i) by lia.
        apply Hfail. lia.
      * by replace (List.length log + S n) with (List.length log + 1 + n)
          by lia.
      * by rewrite <-app_assoc.
    + intros (n & Hn & Hfail & Hgood & ->). destruct n as [|n].
      { rewrite Nat.add_0_r, Hfirst in Hgood. discriminate. }
      exists n. split; [lia|]. split; [|split].
      * intros i Hi.
        replace (List.length log + 1 + i) with (List.length log + S i) by lia.
        apply Hfail. lia.
      * by replace (List.length log + 1 + n) with (List.length log + S n)
          by lia.
      * by rewrite <-app_assoc.
Qed.

(** X2. [_retry_get] fails exactly when every one of its [attempts] tries
    fails; it then raises [RuntimeError], whatever the tries raised, after
    [attempts] GETs. *)
Theorem retry_get_exhausted ext req attempts expect_json log e log' :
  ccr_test._retry_get ext req attempts expect_json log = (Raise e, log')
  ↔ e = RuntimeError
    ∧ (∀ i, i < attempts →
         is_ok (let? r := http_get ext (List.length log + i) req in
                ccr_test.read_body expect_json r) = false)
    ∧ log' = log ++ replicate attempts req.
Proof.
  revert log. induction attempts as [|k IH]; intros log.
  { simpl. unfold raise. rewrite app_nil_r. split.
    - intros [= <- <-]. split; [done|]. split; [intros i Hi; lia|done].
    - by intros (-> & _ & ->). }
  rewrite retry_get_step.
  destruct (let? r := http_get ext (List.length log) req in
            ccr_test.read_body expect_json r) as [b0|e0] eqn:Hfirst.
  - split; [discriminate|]. intros (_ & Hfail & _).
    specialize (Hfail 0 ltac:(lia)).
    rewrite Nat.add_0_r, Hfirst in Hfail. discriminate.
  - rewrite IH. rewrite length_app. simpl. split.
    + intros (-> & Hfail & ->). split; [done|]. split.
      * intros [|i] Hi; [by rewrite Nat.add_0_r, Hfirst|].
        replace (List.length log + S i) with (List.length log + 1 + i) by lia.
        apply Hfail. lia.
      * by rewrite <-app_assoc.
    + intros (-> & Hfail & ->). split; [done|]. split.
      * intros i Hi.
        replace (List.length log + 1 + i) with (List.length log + S i) by lia.
        apply Hfail. lia.
      * by rewrite <-app_assoc.
Qed.

(** ** What the scrapers store *)

Lemma name_map_tracked name iso :
  XRATES_NAME_TO_ISO !! name = Some iso → iso ∈ CURRENCIES.
Proof.
  assert (map_Forall (λ _ iso, iso ∈ CURRENCIES) XRATES_NAME_TO_ISO) as H.
  { apply (bool_decide_unpack _). vm_compute. exact I. }
  apply H.
Qed.

Lemma scan_row_dom ext labels name_col rate_col row rates rates' :
  scan_row ext labels name_col rate_col row rates = Ok rates' →
  dom rates ⊆ (list_to_set CURRENCIES : gset string) →
  dom rates' ⊆ (list_to_set CURRENCIES : gset string).
Proof.
  unfold scan_row. intros Hrow Hdom.
  destruct (row_get labels row name_col) as [x|e]; [simpl in Hrow|done].
  destruct x as [s|]; simpl in Hrow; [|by injection Hrow as <-].
  destruct (XRATES_NAME_TO_ISO !! strip s) as [iso|] eqn:Hiso;
    [|by injection Hrow as <-].
  destruct (rate_of ext _) as [val|]; injection Hrow as <-; [|done].
  rewrite dom_insert. intros k [->%elem_of_singleton|Hk]%elem_of_union.
  - apply elem_of_list_to_set. by eapply name_map_tracked.
  - by apply Hdom.
Qed.

Lemma xrates_rows_dom ext labels name_col rate_col body rates :
  dom rates ⊆ (list_to_set CURRENCIES : gset string) →
  dom (ccr_test.xrates_rows ext labels name_col rate_col body rates)
  ⊆ (list_to_set CURRENCIES : gset string).
Proof.
  revert rates. induction body as [|row body IH]; intros rates Hdom; simpl;
    [done|].
  destruct (scan_row ext labels name_col rate_col row rates) as [rates'|e]
    eqn:Hrow; [|done].
  apply IH. by eapply scan_row_dom.
Qed.

Lemma table_rows_dom ext labels name_col rate_col body rates rates' :
  new_ccr.table_rows ext labels name_col rate_col body rates = Ok rates' →
  dom rates ⊆ (list_to_set CURRENCIES : gset string) →
  dom rates' ⊆ (list_to_set CURRENCIES : gset string).
Proof.
  revert rates. induction body as [|row body IH]; intros rates; simpl.
  { by intros [= <-]. }
  destruct (scan_row ext labels name_col rate_col row rates) as [r1|e]
    eqn:Hrow; [simpl|done].
  intros Hrest Hdom. eapply IH; [done|]. by eapply scan_row_dom.
Qed.

Lemma scan_tables_dom ext tables rates rates' :
  new_ccr.scan_tables ext tables rates = Ok rates' →
  dom rates ⊆ (list_to_set CURRENCIES : gset string) →
  dom rates' ⊆ (list_to_set CURRENCIES : gset string).
Proof.
  revert rates. induction tables as [|df tables IH]; intros rates; simpl.
  { by intros [= <-]. }
  destruct (new_ccr.scan_table ext df rates) as [r1|e] eqn:Hdf;
    [simpl|done].
  intros Hrest Hdom. eapply IH; [done|].
  unfold new_ccr.scan_table in Hdf.
  destruct (new_ccr.detect_columns _) as [[n|] [r|]].
  1: by eapply table_rows_dom.
  all: destruct (strip <$> tcolumns df) as [|n' [|r' l]];
       try (by injection Hdf as <-); by eapply table_rows_dom.
Qed.

(** X3. Whatever the scraped tables hold, both scrapers store rates under
    tracked currency codes only: every key of the map [_from_xrates]
    parses, and every key of the map [fetch_xrates_usd_to_quotes] returns,
    is one of [CURRENCIES]. *)
Theorem scraped_keys_are_tracked ext tables rates :
  new_ccr.quotes_of_tables ext tables = Ok rates →
  dom (ccr_test.parse_xrates ext tables)
    ⊆ (list_to_set CURRENCIES : gset string)
  ∧ dom rates ⊆ (list_to_set CURRENCIES : gset string).
Proof.
  intros Hq. split.
  - unfold ccr_test.parse_xrates. clear Hq.
    assert (∀ acc, dom acc ⊆ (list_to_set CURRENCIES : gset string) →
                   dom (foldl (ccr_test.xrates_table ext) acc tables)
                   ⊆ (list_to_set CURRENCIES : gset string)) as Hfold.
    { induction tables as [|df tables IH]; intros acc Hacc; simpl; [done|].
      apply IH. unfold ccr_test.xrates_table.
      destruct (strip <$> tcolumns df) as [|n [|r l]]; try done.
      by apply xrates_rows_dom. }
    apply Hfold. rewrite dom_empty. apply empty_subseteq.
  - unfold new_ccr.quotes_of_tables in Hq.
    destruct tables as [|df tables]; [done|].
    destruct (new_ccr.scan_tables ext (df :: tables) ∅) as [scanned|e]
      eqn:Hs; [simpl in Hq|done].
    case_bool_decide; [done|]. injection Hq as <-.
    apply scan_tables_dom in Hs; [|rewrite dom_empty; apply empty_subseteq].
    intros k Hk. apply elem_of_dom in Hk as [v Hv].
    destruct (decide (k = "PAB")) as [->|Hp]; [compute_done|].
    rewrite setdefault_lookup_ne in Hv by done.
    destruct (decide (k = "USD")) as [->|Hu]; [compute_done|].
    rewrite lookup_insert_ne in Hv by done.
    apply Hs, elem_of_dom. eauto.
Qed.

(** Witness of X3: the table that lists the euro alone. *)
Lemma scraped_keys_are_tracked_witness :
  dom (ccr_test.parse_xrates Scenario.partial Scenario.euro_table)
    ⊆ (list_to_set CURRENCIES : gset string).
Proof.
  assert (new_ccr.quotes_of_tables Scenario.partial Scenario.euro_table
          = Ok (list_to_map [("EUR", 0.91%float); ("USD", 1%float);
                             ("PAB", 1%float)])) as Hq
    by (vm_compute; reflexivity).
  exact (proj1 (scraped_keys_are_tracked _ _ _ Hq)).
Defined.



(** The month-block scraper, which renames the columns to their stripped
    labels first, reads the same table. *)
Example stripped_table_is_read :
  new_ccr.scan_table Scenario.partial
    (mk_table [" Currency"; "Rate"] [["Euro"; "0.91"]]) ∅
  = Ok {[ "EUR" := 0.91%float ]}.
Proof. vm_compute. reflexivity. Qed.

(** ** The requests of the resolver *)

Lemma retry_get_log_pos ext req k expect_json log r log' :
  ccr_test._retry_get ext req (S k) expect_json log = (r, log') →
  ∃ n, 1 ≤ n ≤ S k ∧ log' = log ++ replicate n req.
Proof.
  rewrite retry_get_step.
  destruct (let? r := http_get ext (List.length log) req in
            ccr_test.read_body expect_json r) as [b|e].
  - intros [= _ <-]. exists 1. split; [lia|done].
  - intros (n & Hn & ->)%retry_get_log. exists (S n). split; [lia|].
    by rewrite <-app_assoc.
Qed.

Lemma from_xrates_log_pos ext d log r log1 :
  ccr_test._from_xrates ext d log = (r, log1) →
  ∃ n, 1 ≤ n ≤ 3 ∧ log1 = log ++ replicate n (XRatesHistorical d).
Proof.
  unfold ccr_test._from_xrates. rewrite bind_run.
  destruct (ccr_test._retry_get ext (XRatesHistorical d) 3 false log)
    as [[html|e] l1] eqn:Hget;
    apply retry_get_log_pos in Hget as (n & Hn & ->).
  - rewrite bind_run. unfold lift, ret.
    destruct (read_html ext html); intros [= _ <-]; eauto.
  - intros [= _ <-]; eauto.
Qed.

Lemma from_exchangerate_host_log_pos ext d needed log r log1 :
  ccr_test._from_exchangerate_host ext d needed log = (r, log1) →
  ∃ n, 1 ≤ n ≤ 3 ∧ log1 = log ++ replicate n (ExchangerateHost d needed).
Proof.
  unfold ccr_test._from_exchangerate_host. rewrite bind_run.
  destruct (ccr_test._retry_get ext (ExchangerateHost d needed) 3 true log)
    as [[data|e] l1] eqn:Hget;
    apply retry_get_log_pos in Hget as (n & Hn & ->); intros [= _ <-]; eauto.
Qed.

Lemma from_frankfurter_log_pos ext d needed log r log1 :
  ccr_test._from_frankfurter ext d needed log = (r, log1) →
  ∃ n, 1 ≤ n ≤ 3 ∧ log1 = log ++ replicate n (Frankfurter d needed).
Proof.
  unfold ccr_test._from_frankfurter. rewrite bind_run.
  destruct (ccr_test._retry_get ext (Frankfurter d needed) 3 true log)
    as [[data|e] l1] eqn:Hget;
    apply retry_get_log_pos in Hget as (n & Hn & ->); intros [= _ <-]; eauto.
Qed.

Lemma merge_missing_dom rates extra :
  dom rates ⊆ dom (ccr_test.merge_missing rates extra).
Proof.
  intros k [v Hv]%elem_of_dom. apply elem_of_dom.
  rewrite merge_missing_lookup, Hv. eauto.
Qed.

(** X5. Whether it returns or raises, the resolver issues its GETs in the
    order of priority and at most three per provider, nine in all: x-rates
    first and always; exchangerate.host next, for a set of currencies within
    the tracked non-base ones; Frankfurter last, only after
    exchangerate.host was asked, and for a subset of what that one was
    asked. *)
Theorem resolver_requests ext d log r log' :
  ccr_test.fetch_usd_quotes_for_date ext d log = (r, log') →
  ∃ n1 n2 n3 s2 s3,
    log' = log ++ replicate n1 (XRatesHistorical d)
               ++ replicate n2 (ExchangerateHost d s2)
               ++ replicate n3 (Frankfurter d s3)
    ∧ 1 ≤ n1 ≤ 3 ∧ n2 ≤ 3 ∧ n3 ≤ 3
    ∧ (0 < n3 → 0 < n2)
    ∧ s3 ⊆ s2 ∧ s2 ⊆ ccr_test.required.
Proof.
  rewrite fetch_usd_quotes_run.
  destruct (ccr_test._from_xrates ext d log) as [[xr|e] log1] eqn:Hxr;
    apply from_xrates_log_pos in Hxr as (n1 & Hn1 & ->).
  2:{ intros [= _ <-]. exists n1, 0, 0, ∅, ∅. simpl. rewrite !app_nil_r.
      repeat split; try lia; apply empty_subseteq. }
  case_bool_decide as Hall.
  { intros [= _ <-]. exists n1, 0, 0, ∅, ∅. simpl. rewrite !app_nil_r.
    repeat split; try lia; apply empty_subseteq. }
  destruct (ccr_test._from_exchangerate_host ext d _ _) as [[eh|e] log2]
    eqn:Heh; apply from_exchangerate_host_log_pos in Heh as (n2 & Hn2 & ->).
  2:{ intros [= _ <-]. exists n1, n2, 0, (ccr_test.required ∖ dom xr), ∅.
      simpl. rewrite app_nil_r, <-app_assoc.
      repeat split; try lia; [apply empty_subseteq|].
      intros k [? _]%elem_of_difference. done. }
  cbv zeta. case_bool_decide as Hall2.
  { intros [= _ <-]. exists n1, n2, 0, (ccr_test.required ∖ dom xr), ∅.
    simpl. rewrite app_nil_r, <-app_assoc.
    repeat split; try lia; [apply empty_subseteq|].
    intros k [? _]%elem_of_difference. done. }
  destruct (ccr_test._from_frankfurter ext d _ _) as [[fk|e] log3] eqn:Hfk;
    apply from_frankfurter_log_pos in Hfk as (n3 & Hn3 & ->);
    intros [= _ <-];
    exists n1, n2, n3, (ccr_test.required ∖ dom xr),
           (ccr_test.required ∖ dom (ccr_test.merge_missing xr eh));
    rewrite <-!app_assoc.
  all: repeat split; try lia.
  all: try (intros k [Hk Hn]%elem_of_difference; apply elem_of_difference;
            split; [done|]; intros Hin; apply Hn;
            by apply merge_missing_dom).
  all: by intros k [? _]%elem_of_difference.
Qed.

(** Witness of X5: the resolver on the partial scenario asks each of the
    three providers once. *)
Lemma resolver_requests_witness :
  ∃ n1 n2 n3 s2 s3,
    Scenario.partial_log
    = [] ++ replicate n1 (XRatesHistorical Scenario.day)
         ++ replicate n2 (ExchangerateHost Scenario.day s2)
         ++ replicate n3 (Frankfurter Scenario.day s3)
    ∧ 1 ≤ n1 ≤ 3 ∧ n2 ≤ 3 ∧ n3 ≤ 3.
Proof.
  assert (ccr_test.fetch_usd_quotes_for_date Scenario.partial Scenario.day []
          = (Ok Scenario.partial_quotes, Scenario.partial_log)) as Hfetch
    by (vm_compute; reflexivity).
  destruct (resolver_requests _ _ _ _ _ Hfetch)
    as (n1 & n2 & n3 & s2 & s3 & Hlog & H1 & H2 & H3 & _).
  exists n1, n2, n3, s2, s3. exact (conj Hlog (conj H1 (conj H2 H3))).
Defined.

(** ** The rows of the builders *)

Lemma conv_for_raise c usd_to e :
  ccr_test.conv_for c usd_to = Raise e
  ↔ e = ZeroDivisionError
    ∧ c ≠ "PAB" ∧ ∃ q, usd_to !! c = Some (Some q) ∧ is_zero q = true.
Proof.
  destruct (decide (c = "PAB")) as [->|Hp].
  { rewrite conv_for_pegged. split; [discriminate|]. by intros (_ & ? & _). }
  rewrite conv_for_daily by done.
  destruct (usd_to !! c) as [[q|]|].
  - destruct (is_zero q) eqn:Hz.
    + split; [intros [= <-]; eauto|by intros [-> _]].
    + split; [discriminate|]. intros (_ & _ & q' & [= <-] & ?). congruence.
  - split; [discriminate|]. by intros (_ & _ & q' & [=] & _).
  - split; [discriminate|]. by intros (_ & _ & q' & [=] & _).
Qed.

Lemma build_rows_raise d usd_to ccys e :
  ccr_test.build_rows d usd_to ccys = Raise e
  ↔ e = ZeroDivisionError
    ∧ Exists (λ c, ccr_test.conv_for c usd_to = Raise ZeroDivisionError) ccys.
Proof.
  induction ccys as [|c ccys IH]; simpl.
  { split; [discriminate|]. by intros [_ ?%Exists_nil]. }
  rewrite Exists_cons.
  destruct (ccr_test.conv_for c usd_to) as [v|e0] eqn:Hc; simpl.
  - destruct (ccr_test.build_rows d usd_to ccys) as [rows|e1]; simpl.
    + split; [discriminate|]. intros [He [?|Hex]]; [done|].
      pose proof (proj2 IH (conj He Hex)) as Hbad. discriminate.
    + rewrite IH. split; [intros [-> ?]; auto|].
      intros [-> [?|?]]; [done|auto].
  - assert (e0 = ZeroDivisionError) as ->
      by (apply conv_for_raise in Hc; tauto).
    split; [intros [= <-]; auto|by intros [-> _]].
Qed.

(** X6. [build_rows_for_date] raises exactly when a tracked currency other
    than PAB carries a zero quote, and then it is [ZeroDivisionError]; an
    absent or [None] quote, a quote for PAB or for an untracked currency
    never makes it raise. *)
Theorem build_rows_for_date_raises d usd_to e :
  ccr_test.build_rows_for_date d usd_to = Raise e
  ↔ e = ZeroDivisionError
    ∧ ∃ c q, c ∈ CURRENCIES ∧ c ≠ "PAB" ∧ usd_to !! c = Some (Some q)
             ∧ is_zero q = true.
Proof.
  unfold ccr_test.build_rows_for_date. rewrite build_rows_raise, Exists_exists.
  split.
  - intros [-> (c & Hc & (_ & Hp & q & Hq & Hz)%conv_for_raise)]. eauto 10.
  - intros [-> (c & q & Hc & Hp & Hq & Hz)]. split; [done|].
    exists c. split; [done|]. apply conv_for_raise. eauto.
Qed.

(** X7. When [build_rows_for_date] returns, it returns one row per
    tracked currency, in the order of [CURRENCIES], each stamped with the
    ISO form, the year and the month name of the date. *)
Theorem one_row_per_currency d usd_to rows :
  ccr_test.build_rows_for_date d usd_to = Ok rows →
  (λ r, at_col (dict_of r) "currency") <$> rows = VStr <$> CURRENCIES
  ∧ Forall (λ r, at_col (dict_of r) "conversion_date" = VStr (isoformat d)
                 ∧ at_col (dict_of r) "conversion_year" = VInt (year d)
                 ∧ at_col (dict_of r) "conversion_month"
                   = VStr (month_name (month d))) rows.
Proof.
  intros (conv & _ & ->)%build_rows_inv.
  assert (∀ c v, at_col (dict_of (ccr_test.build_row d c v)) "currency"
                 = VStr c
                 ∧ at_col (dict_of (ccr_test.build_row d c v)) "conversion_date"
                   = VStr (isoformat d)
                 ∧ at_col (dict_of (ccr_test.build_row d c v)) "conversion_year"
                   = VInt (year d)
                 ∧ at_col (dict_of (ccr_test.build_row d c v))
                     "conversion_month" = VStr (month_name (month d)))
    as Hrow.
  { intros c v. unfold ccr_test.build_row.
    destruct (default ("", "") (COUNTRY_MAP !! c)) as [country ccode].
    repeat split; reflexivity. }
  split.
  - rewrite <-list_fmap_compose. apply list_fmap_ext. intros i c _. simpl.
    apply Hrow.
  - apply Forall_fmap, Forall_forall. intros c _. simpl. apply Hrow.
Qed.

(** Witness of X7: the rows built from the partial scenario. *)
Lemma one_row_per_currency_witness :
  (λ r, at_col (dict_of r) "currency") <$> Scenario.partial_rows
  = VStr <$> CURRENCIES.
Proof.
  assert (ccr_test.build_rows_for_date Scenario.day
            (Some <$> Scenario.partial_quotes)
          = Ok Scenario.partial_rows) as Hbuild
    by (vm_compute; reflexivity).
  exact (proj1 (one_row_per_currency _ _ _ Hbuild)).
Defined.

(** ** Which row survives a merge *)

Section surviving_row.
Context {A K : Type} `{EqDecision K} (key : A → K).

Lemma filter_key_keep_unseen seen l k :
  filter (λ x, key x = k) (keep_unseen key seen l)
  = if bool_decide (k ∈ seen) then []
    else option_list (head (filter (λ x, key x = k) l)).
Proof.
  revert seen. induction l as [|x l IH]; intros seen; simpl.
  { by case_bool_decide. }
  case_bool_decide as Hx.
  - rewrite IH. case_bool_decide as Hk; [done|].
    rewrite (filter_cons_False _ x); [done|]. intros Heq. by rewrite Heq in Hx.
  - destruct (decide (key x = k)) as [<-|Hne].
    + rewrite !filter_cons_True by done. rewrite IH.
      rewrite bool_decide_true by by left.
      by rewrite bool_decide_false.
    + rewrite !filter_cons_False by done. rewrite IH.
      rewrite (bool_decide_ext (k ∈ key x :: seen) (k ∈ seen)); [done|].
      rewrite elem_of_cons. split; [intros [?|?]; [congruence|done]|auto].
Qed.

Lemma filter_key_first l k :
  filter (λ x, key x = k) (drop_duplicates_first key l)
  = option_list (head (filter (λ x, key x = k) l)).
Proof.
  unfold drop_duplicates_first. rewrite filter_key_keep_unseen.
  rewrite bool_decide_false; [done|apply not_elem_of_nil].
Qed.

Lemma filter_key_last l k :
  filter (λ x, key x = k) (drop_duplicates_last key l)
  = option_list (last (filter (λ x, key x = k) l)).
Proof.
  unfold drop_duplicates_last.
  rewrite filter_reverse, (filter_key_keep_unseen []).
  rewrite bool_decide_false by apply not_elem_of_nil.
  rewrite filter_reverse, head_reverse. by destruct (last _).
Qed.
End surviving_row.

(** X8. Whatever was stored and whatever the batch, the table
    [write_append_dedupe] writes to the CSV holds no two rows with the same
    (log_date, currency) key and is sorted by date, then currency; unless
    the XLSX is locked, the XLSX receives the same table. *)
Theorem written_table_unique_sorted df_new d :
  ∃ t,
    ccr_test.csv (ccr_test.write_append_dedupe df_new d) = ccr_test.Stored t
    ∧ NoDup (ccr_test.row_key <$> t)
    ∧ StronglySorted ccr_test.by_date_currency t
    ∧ (ccr_test.xlsx_locked d = false →
       ccr_test.xlsx (ccr_test.write_append_dedupe df_new d)
       = ccr_test.Stored t).
Proof.
  pose proof (lex_le_total ccr_test.log_date ccr_test.currency
                ccr_test.stamp_le String.le) as Htot.
  pose proof (lex_le_trans ccr_test.log_date ccr_test.currency
                ccr_test.stamp_le String.le) as Htrans.
  eexists. split; [|split; [|split]].
  - unfold ccr_test.write_append_dedupe.
    by destruct (ccr_test.xlsx_locked d).
  - unfold ccr_test.append_dedupe. rewrite sort_values_perm.
    apply drop_duplicates_last_NoDup.
  - apply Sorted_StronglySorted; [apply Htrans|].
    by apply sort_values_Sorted.
  - intros Hlock. unfold ccr_test.write_append_dedupe. by rewrite Hlock.
Qed.

(** X9. New row wins: for every key, the table [write_append_dedupe] writes
    holds at most one row with that key, namely the last row of the batch
    that carries it, or, when the batch has none, the last stored row that
    carries it. No key of the store or of the batch is lost. *)
Theorem new_row_wins df_old df_new k :
  filter (λ r, ccr_test.row_key r = k) (ccr_test.append_dedupe df_old df_new)
  = option_list
      match last (filter (λ r, ccr_test.row_key r = k) df_new) with
      | Some r => Some r
      | None => last (filter (λ r, ccr_test.row_key r = k) df_old)
      end.
Proof.
  unfold ccr_test.append_dedupe.
  assert (filter (λ r, ccr_test.row_key r = k)
            (sort_values ccr_test.by_date_currency
               (drop_duplicates_last ccr_test.row_key (df_old ++ df_new)))
          ≡ₚ option_list
               (last (filter (λ r, ccr_test.row_key r = k)
                        (df_old ++ df_new)))) as Hperm.
  { rewrite <-filter_key_last. apply filter_Permutation, sort_values_perm. }
  rewrite filter_app, last_app in Hperm.
  destruct (match last (filter _ df_new) with
            | Some y => Some y
            | None => last (filter (λ r, ccr_test.row_key r = k) df_old)
            end) as [r|]; simpl in Hperm.
  - by apply Permutation_singleton_r in Hperm.
  - by apply Permutation_nil_r in Hperm.
Qed.

(** X10. Stored row wins: when the stored CSV carries the key column,
    [merge_and_write] keeps for every key at most one row, the first stored
    row that carries it, or, when the store has none, the first row of the
    batch that carries it. When the stored keys are pairwise distinct, the
    stored rows are kept as they are and in place, and the rows appended
    after them come from the batch and carry keys the store did not have. *)
Theorem stored_row_wins df_new d df_old :
  new_ccr.csv d = new_ccr.Stored df_old →
  new_ccr.key ∈ columns df_old →
  ∃ out,
    new_ccr.csv (new_ccr.merge_and_write df_new d) = new_ccr.Stored out
    ∧ columns out = union_columns (columns df_old) (columns df_new)
    ∧ (∀ k,
         filter (λ r, new_ccr.row_key r = k) (rows out)
         = option_list
             match head (filter (λ r, new_ccr.row_key r = k) (rows df_old)) with
             | Some r => Some r
             | None => head (filter (λ r, new_ccr.row_key r = k) (rows df_new))
             end)
    ∧ (NoDup (new_ccr.row_key <$> rows df_old) →
       ∃ added,
         rows out = rows df_old ++ added
         ∧ ∀ r, r ∈ added →
                r ∈ rows df_new
                ∧ new_ccr.row_key r ∉ new_ccr.row_key <$> rows df_old).
Proof.
  intros Hcsv Hkey. eexists. split; [|split; [|split]].
  - rewrite merge_and_write_csv, Hcsv. by rewrite bool_decide_true.
  - done.
  - intros k. simpl. by rewrite filter_key_first, filter_app, head_app.
  - intros Hnd. simpl. unfold drop_duplicates_first.
    rewrite keep_unseen_app, (keep_unseen_id _ _ Hnd), app_nil_r.
    eexists. split; [done|].
    by intros r [? ?]%elem_of_keep_unseen.
Qed.

(** Witness of X10: a batch for the euro and the pound merged into a store
    that holds the euro already. *)
Lemma stored_row_wins_witness :
  ∃ out,
    new_ccr.csv (new_ccr.merge_and_write Scenario.distinct_batch
                   Scenario.euro_disk)
    = new_ccr.Stored out
    ∧ filter (λ r, new_ccr.row_key r = KStr "2024-January-EUR") (rows out)
      = [Scenario.month_record "EUR" 1.5%float].
Proof.
  destruct (stored_row_wins Scenario.distinct_batch Scenario.euro_disk
              Scenario.euro_frame eq_refl) as (out & Hout & _ & Hrows & _).
  { apply (bool_decide_unpack _). vm_compute. exact I. }
  exists out. split; [exact Hout|].
  rewrite (Hrows (KStr "2024-January-EUR")). vm_compute. reflexivity.
Defined.

(** ** The dates of a daily run *)

Lemma days_in_month_bounds y m : (28 ≤ days_in_month y m ≤ 31)%Z.
Proof.
  unfold days_in_month.
  destruct (m =? 2)%Z; [destruct (is_leap y); lia|].
  destruct ((m =? 4) || (m =? 6) || (m =? 9) || (m =? 11))%Z; lia.
Qed.

Lemma next_day_valid d d' :
  valid_date d → next_day d = Some d' → valid_date d'.
Proof.
  destruct d as [y m dd]. unfold valid_date, next_day. simpl.
  intros (Hy & Hm & Hd) Hnext.
  destruct (Z.ltb_spec dd (days_in_month y m)).
  { injection Hnext as <-. simpl. lia. }
  destruct (Z.ltb_spec m 12).
  { injection Hnext as <-. simpl.
    pose proof (days_in_month_bounds y (m + 1)). lia. }
  destruct (Z.ltb_spec y MAXYEAR); [|done].
  injection Hnext as <-. simpl.
  pose proof (days_in_month_bounds (y + 1) 1). lia.
Qed.

Lemma next_day_rank d d' :
  valid_date d → next_day d = Some d' →
  (ccr_test.day_rank d < ccr_test.day_rank d')%Z.
Proof.
  destruct d as [y m dd]. unfold valid_date, next_day, ccr_test.day_rank.
  simpl. intros (Hy & Hm & Hd) Hnext.
  pose proof (days_in_month_bounds y m).
  destruct (Z.ltb_spec dd (days_in_month y m)).
  { injection Hnext as <-. simpl. lia. }
  destruct (Z.ltb_spec m 12).
  { injection Hnext as <-. simpl. lia. }
  destruct (Z.ltb_spec y MAXYEAR); [|done].
  injection Hnext as <-. simpl. lia.
Qed.

Lemma day_rank_le d e :
  valid_date d → valid_date e →
  ccr_test.date_le d e ↔ (ccr_test.day_rank d ≤ ccr_test.day_rank e)%Z.
Proof.
  destruct d as [y m dd], e as [y' m' dd'].
  unfold valid_date, ccr_test.date_le, ccr_test.day_rank. simpl.
  intros (Hy & Hm & Hd) (Hy' & Hm' & Hd').
  pose proof (days_in_month_bounds y m).
  pose proof (days_in_month_bounds y' m'). lia.
Qed.

Lemma day_rank_inj d e :
  ccr_test.date_le d e → ccr_test.date_le e d → d = e.
Proof.
  destruct d as [y m dd], e as [y' m' dd']. unfold ccr_test.date_le. simpl.
  intros Hle Hge.
  assert (y = y' ∧ m = m' ∧ dd = dd') as (-> & -> & ->) by lia. done.
Qed.

(** The day after [d] is the least valid date after [d]. *)
Lemma next_day_least d x :
  valid_date d → valid_date x → ccr_test.date_le d x → d ≠ x →
  ∃ d', next_day d = Some d' ∧ ccr_test.date_le d' x.
Proof.
  destruct d as [y m dd], x as [y' m' dd'].
  unfold valid_date, ccr_test.date_le, next_day. simpl.
  intros (Hy & Hm & Hd) (Hy' & Hm' & Hd') Hle Hne.
  pose proof (days_in_month_bounds y m).
  destruct (Z.ltb_spec dd (days_in_month y m)).
  { eexists. split; [done|]. simpl.
    destruct (decide (y = y' ∧ m = m' ∧ dd = dd')) as [(-> & -> & ->)|];
      [done|lia]. }
  assert (y = y' → m = m' → dd' ≤ dd)%Z as Hsame.
  { intros -> ->. lia. }
  destruct (Z.ltb_spec m 12).
  { eexists. split; [done|]. simpl.
    destruct (decide (y = y' ∧ m = m' ∧ dd = dd')) as [(-> & -> & ->)|];
      [done|lia]. }
  unfold MAXYEAR in *.
  destruct (Z.ltb_spec y 9999).
  { eexists. split; [done|]. simpl.
    destruct (decide (y = y' ∧ m = m' ∧ dd = dd')) as [(-> & -> & ->)|];
      [done|lia]. }
  destruct (decide (y = y' ∧ m = m' ∧ dd = dd')) as [(-> & -> & ->)|];
    [done|lia].
Qed.

Lemma next_day_after d d' :
  valid_date d → next_day d = Some d' →
  ccr_test.date_le d d' ∧ ¬ ccr_test.date_le d' d.
Proof.
  intros Hd Hnext.
  pose proof (next_day_valid _ _ Hd Hnext) as Hd'.
  pose proof (next_day_rank _ _ Hd Hnext) as Hrank.
  rewrite !day_rank_le by done. lia.
Qed.

(** The loop of [daterange], with turns to spare. *)
Lemma daterange_from_spec n d e :
  valid_date d → valid_date e → is_Some (next_day e) →
  (ccr_test.day_rank e - ccr_test.day_rank d < Z.of_nat n)%Z →
  ∃ l,
    ccr_test.daterange_from n d e = Some l
    ∧ (∀ x, x ∈ l ↔ valid_date x ∧ ccr_test.date_le d x ∧ ccr_test.date_le x e)
    ∧ (∀ i a b, l !! i = Some a → l !! S i = Some b → next_day a = Some b)
    ∧ (ccr_test.date_le d e → head l = Some d ∧ last l = Some e)
    ∧ (¬ ccr_test.date_le d e → l = []).
Proof.
  revert d. induction n as [|n IH]; intros d Hd He Hmax Hturns.
  - assert (¬ ccr_test.date_le d e) as Hgt.
    { rewrite day_rank_le by done. lia. }
    exists []. split; [done|]. split; [|split; [done|split; done]].
    intros x. split; [by intros ?%elem_of_nil|].
    intros (_ & H1 & H2). destruct Hgt. by etrans.
  - simpl. destruct (decide (ccr_test.date_le d e)) as [Hle|Hgt].
    2:{ rewrite bool_decide_false by done.
        exists []. split; [done|]. split; [|split; [done|split; done]].
        intros x. split; [by intros ?%elem_of_nil|].
        intros (_ & H1 & H2). destruct Hgt. by etrans. }
    rewrite bool_decide_true by done.
    assert (∃ d', next_day d = Some d') as [d' Hnext].
    { destruct (decide (d = e)) as [->|Hne]; [exact Hmax|].
      destruct (next_day_least d e) as (d' & ? & _); eauto. }
    rewrite Hnext.
    pose proof (next_day_valid _ _ Hd Hnext) as Hd'.
    pose proof (next_day_rank _ _ Hd Hnext) as Hrank.
    pose proof (next_day_after _ _ Hd Hnext) as [Hdd' Hd'd].
    destruct (IH d') as (l & -> & Hmem & Hstep & Hends & Hnil);
      [done..|lia|].
    exists (d :: l). split; [done|]. split; [|split; [|split; [|done]]].
    + intros x. rewrite elem_of_cons, Hmem. split.
      * intros [->|(? & ? & ?)]; [done|].
        split; [done|]. split; [by etrans|done].
      * intros (Hx & Hdx & Hxe).
        destruct (decide (x = d)) as [->|Hne]; [by left|right].
        destruct (next_day_least d x) as (d2 & Hd2 & ?); [done..|].
        rewrite Hnext in Hd2. by injection Hd2 as ->.
    + intros [|i] a b Ha Hb; simpl in *.
      * injection Ha as <-.
        destruct (decide (ccr_test.date_le d' e)) as [Hle'|Hgt'].
        -- destruct (Hends Hle') as [Hhead _].
           destruct l; simpl in *; congruence.
        -- by rewrite (Hnil Hgt') in Hb.
      * by eapply Hstep.
    + intros _. split; [done|].
      destruct (decide (ccr_test.date_le d' e)) as [Hle'|Hgt'].
      * destruct (Hends Hle') as [Hhead Hlast].
        destruct l; [done|]. by rewrite last_cons, Hlast.
      * rewrite (Hnil Hgt'). simpl. f_equal.
        destruct (decide (d = e)) as [|Hne]; [done|].
        destruct (next_day_least d e) as (d2 & Hd2 & ?); [done..|].
        rewrite Hnext in Hd2. injection Hd2 as ->. done.
Qed.

(** X11. For valid calendar dates, with [end_inclusive] before the last
    date [datetime.date] can hold, [daterange] lists exactly the valid
    dates from [start] to [end_inclusive], each followed by the day after
    it: the list starts at [start] and ends at [end_inclusive] when
    [start] is not after it, and is empty otherwise. *)
Theorem daterange_lists_each_day start end_inclusive :
  valid_date start → valid_date end_inclusive →
  is_Some (next_day end_inclusive) →
  ∃ l,
    ccr_test.daterange start end_inclusive = Some l
    ∧ (∀ x, x ∈ l ↔ valid_date x ∧ ccr_test.date_le start x
                    ∧ ccr_test.date_le x end_inclusive)
    ∧ (∀ i a b, l !! i = Some a → l !! S i = Some b → next_day a = Some b)
    ∧ (ccr_test.date_le start end_inclusive →
       head l = Some start ∧ last l = Some end_inclusive)
    ∧ (¬ ccr_test.date_le start end_inclusive → l = []).
Proof.
  intros Hs He Hmax. apply daterange_from_spec; [done..|lia].
Qed.

(** Witness of X11: the last three days of February of a leap year and the
    first of March. *)
Lemma daterange_lists_each_day_witness :
  ∃ l,
    ccr_test.daterange (mk_date 2024 2 27) (mk_date 2024 3 1) = Some l
    ∧ last l = Some (mk_date 2024 3 1)
    ∧ List.length l = 4.
Proof.
  assert (valid_date (mk_date 2024 2 27)) as Hs by (vm_compute; intuition discriminate).
  assert (valid_date (mk_date 2024 3 1)) as He by (vm_compute; intuition discriminate).
  assert (is_Some (next_day (mk_date 2024 3 1))) as Hmax by (vm_compute; eauto).
  destruct (daterange_lists_each_day _ _ Hs He Hmax)
    as (l & Hl & _ & _ & Hends & _).
  exists l. split; [exact Hl|].
  split.
  - apply Hends. vm_compute. tauto.
  - assert (ccr_test.daterange (mk_date 2024 2 27) (mk_date 2024 3 1)
            = Some [mk_date 2024 2 27; mk_date 2024 2 28; mk_date 2024 2 29;
                    mk_date 2024 3 1]) as Hrun by (vm_compute; reflexivity).
    rewrite Hrun in Hl. injection Hl as <-. reflexivity.
Defined.

(** Up to the last date of the calendar the loop cannot finish: the
    increment after it overflows. *)
Lemma daterange_from_overflow n d e :
  valid_date d → valid_date e → next_day e = None → ccr_test.date_le d e →
  (ccr_test.day_rank e - ccr_test.day_rank d < Z.of_nat n)%Z →
  ccr_test.daterange_from n d e = None.
Proof.
  revert d. induction n as [|n IH]; intros d Hd He Hmax Hle Hturns.
  - apply day_rank_le in Hle; [lia|done..].
  - simpl. rewrite bool_decide_true by done.
    destruct (next_day d) as [d'|] eqn:Hnext; [|done].
    assert (d ≠ e) as Hne by congruence.
    destruct (next_day_least d e) as (d2 & Hd2 & Hle'); [done..|].
    rewrite Hnext in Hd2. injection Hd2 as <-.
    pose proof (next_day_valid _ _ Hd Hnext).
    pose proof (next_day_rank _ _ Hd Hnext).
    rewrite IH; [done..|lia].
Qed.

(** X12. The dates a daily run collects, [today] being a valid date: the
    list always ends with [today]; it is [today] alone when [today] is
    before the backfill start 2023-01-01 or is the last date of the
    calendar (the failed increment past it is caught); otherwise it holds
    exactly the valid dates from 2023-01-01 to [today], so that every run
    collects the whole backfill range again. *)
Theorem main_dates_span today :
  valid_date today →
  last (ccr_test.main_dates today) = Some today
  ∧ (¬ ccr_test.date_le (mk_date 2023 1 1) today ∨ next_day today = None →
     ccr_test.main_dates today = [today])
  ∧ (ccr_test.date_le (mk_date 2023 1 1) today → is_Some (next_day today) →
     head (ccr_test.main_dates today) = Some (mk_date 2023 1 1)
     ∧ ∀ x, x ∈ ccr_test.main_dates today
            ↔ valid_date x ∧ ccr_test.date_le (mk_date 2023 1 1) x
              ∧ ccr_test.date_le x today).
Proof.
  intros Htoday.
  assert (valid_date (mk_date 2023 1 1)) as Hstart.
  { unfold valid_date. simpl. vm_compute. intuition discriminate. }
  unfold ccr_test.main_dates, ccr_test.BACKFILL_START_DATE.
  destruct (decide (ccr_test.date_le (mk_date 2023 1 1) today)) as [Hle|Hgt].
  - rewrite bool_decide_false by tauto.
    destruct (next_day today) as [d'|] eqn:Hnext.
    + destruct (daterange_from_spec
                  (Z.to_nat (ccr_test.day_rank today
                             - ccr_test.day_rank (mk_date 2023 1 1) + 1))
                  (mk_date 2023 1 1) today)
        as (l & Hl & Hmem & _ & Hends & _); [done|done|by rewrite Hnext|lia|].
      unfold ccr_test.daterange. rewrite Hl.
      destruct (Hends Hle) as [Hhead Hlast].
      split; [done|]. split; [by intros [?|?]|]. done.
    + unfold ccr_test.daterange.
      rewrite daterange_from_overflow; [|done..|lia].
      split; [done|]. split; [done|]. by intros _ [? ?].
  - rewrite bool_decide_true by done.
    assert (ccr_test.daterange today today = Some [today]) as ->.
    { unfold ccr_test.daterange.
      replace (ccr_test.day_rank today - ccr_test.day_rank today + 1)%Z
        with 1%Z by lia.
      simpl. rewrite bool_decide_true by done.
      destruct (next_day today) as [d'|] eqn:Hnext; [done|].
      destruct Hgt. destruct today as [y m dd].
      unfold next_day, MAXYEAR in Hnext. unfold ccr_test.date_le.
      simpl in *.
      destruct (Z.ltb_spec dd (days_in_month y m)); [done|].
      destruct (Z.ltb_spec m 12); [done|].
      destruct (Z.ltb_spec y 9999); [done|]. lia. }
    split; [done|]. split; [done|]. by intros ?.
Qed.

(** Witness of X12: a run on the third day of the backfill range. *)
Lemma main_dates_span_witness :
  last (ccr_test.main_dates (mk_date 2023 1 3)) = Some (mk_date 2023 1 3)
  ∧ head (ccr_test.main_dates (mk_date 2023 1 3)) = Some (mk_date 2023 1 1).
Proof.
  assert (valid_date (mk_date 2023 1 3)) as Hv
    by (vm_compute; intuition discriminate).
  assert (ccr_test.date_le (mk_date 2023 1 1) (mk_date 2023 1 3)) as Hle
    by (unfold ccr_test.date_le; simpl; lia).
  assert (is_Some (next_day (mk_date 2023 1 3))) as Hnext
    by (vm_compute; eauto).
  destruct (main_dates_span (mk_date 2023 1 3) Hv) as (Hlast & _ & Hspan).
  exact (conj Hlast (proj1 (Hspan Hle Hnext))).
Defined.

(** X13. A daily run never changes the stored files: whatever the
    providers answer and whatever the day, the collection fails, [main]
    catches the failure and returns before [write_append_dedupe], so the
    CSV, the XLSX and the archive are left as they were. *)
Theorem daily_main_leaves_disk ext today d log :
  (ccr_test.main ext today d log).1 = Ok d.
Proof.
  unfold ccr_test.main, try_except. rewrite bind_run, collect_for_dates_run.
  by destruct (ccr_test.collect_rows ext (ccr_test.main_dates today) log)
    as [[rows|e] log'].
Qed.

(** ** A run of the month-block script *)














(** ** The month label and its two halves *)

Lemma split_on_app sep (a b : string) :
  Forall (λ c, c ≠ sep) (list_ascii_of_string a) →
  split_on sep (a ++ String sep b) = a :: split_on sep b.
Proof.
  induction a as [|c t IH]; simpl; intros Hall.
  - by rewrite Ascii.eqb_refl.
  - apply Forall_cons in Hall as [Hc Hall].
    apply Ascii.eqb_neq in Hc. rewrite Hc. by rewrite IH.
Qed.

Lemma digit_no_dash n :
  Forall (λ c, c ≠ "-"%char) (list_ascii_of_string (digit n)).
Proof.
  unfold digit. pose proof (Z.mod_pos_bound n 10 eq_refl) as Hb.
  assert (n mod 10 = 0 ∨ n mod 10 = 1 ∨ n mod 10 = 2 ∨ n mod 10 = 3
          ∨ n mod 10 = 4 ∨ n mod 10 = 5 ∨ n mod 10 = 6 ∨ n mod 10 = 7
          ∨ n mod 10 = 8 ∨ n mod 10 = 9)%Z as Hd by lia.
  destruct Hd as [->|[->|[->|[->|[->|[->|[->|[->|[->| ->]]]]]]]]];
    by repeat constructor.
Qed.

Lemma pad4_no_dash y :
  Forall (λ c, c ≠ "-"%char) (list_ascii_of_string (pad4 y)).
Proof.
  assert (∀ a b, list_ascii_of_string (a ++ b)
                 = (list_ascii_of_string a ++ list_ascii_of_string b)%list)
    as Happ.
  { intros a b. induction a as [|c t IH]; simpl; [done|by rewrite IH]. }
  unfold pad4, pad2. rewrite !Happ, !Forall_app.
  repeat split; apply digit_no_dash.
Qed.

(** X16. The label of a month splits back into its two halves: for a
    four-digit year and a month of the calendar, [ym_label(y, m)] cut at
    the dashes gives exactly the zero-padded year and the English month
    name, so the unpacking of [label.split("-")] into the year and the
    month name in [build_rows_for_current_month] always finds two parts. *)
Theorem label_splits_in_two y m :
  (1000 ≤ y ≤ 9999)%Z → (1 ≤ m ≤ 12)%Z →
  split_on "-" (new_ccr.ym_label y m) = [pad4 y; month_name m].
Proof.
  intros _ Hm. unfold new_ccr.ym_label.
  change ("-" ++ month_name m)%string with (String "-" (month_name m)).
  rewrite split_on_app by apply pad4_no_dash. f_equal.
  assert (m = 1 ∨ m = 2 ∨ m = 3 ∨ m = 4 ∨ m = 5 ∨ m = 6 ∨ m = 7 ∨ m = 8
          ∨ m = 9 ∨ m = 10 ∨ m = 11 ∨ m = 12)%Z as Hcase by lia.
  destruct Hcase as [->|[->|[->|[->|[->|[->|[->|[->|[->|[->|[->| ->]]]]]]]]]]];
    reflexivity.
Qed.

(** Witness of X16: October 2025. *)
Lemma label_splits_in_two_witness :
  split_on "-" (new_ccr.ym_label 2025 10) = ["2025"; "October"].
Proof.
  assert (1000 ≤ 2025 ≤ 9999)%Z as Hy by lia.
  assert (1 ≤ 10 ≤ 12)%Z as Hm by lia.
  exact (label_splits_in_two 2025 10 Hy Hm).
Defined.
